(** * Launch-weather correlation engine (MCP/src/Helper.ts)

    A shallow embedding of the helper functions behind the Rocket Agent
    tools: the retrying fetch, the haversine distance, the daily forecast
    aggregation and the nearby-launch pipeline.

    Conventions of the embedding:
    - Every JavaScript number the program computes with (temperatures,
      percentages, the requested number of days, coordinates, distances)
      is an IEEE double, as in the program: Rocq's primitive [float], with
      [Math.round], [Math.min] and [Math.max] written out on it.
    - [Math.sin], [Math.cos], [Math.atan2] and [**], which ECMAScript
      leaves to the implementation, are functions of the host; [Math.sqrt]
      is the IEEE operation.
    - A value read from a JSON payload and never tested for its type
      (a coordinate) is a JavaScript value: undefined, null, a boolean, a
      number or a string, turned into a number where the program computes
      with it.
    - Counts, HTTP statuses and epoch times are integers ([nat], [Z]); the
      backoff factor and the pauses of the retry loop are exact ([Q]).
    - A [Date] is its time value in milliseconds since the epoch; an
      invalid date is [None].  The offset of local time is a function of
      the instant, ECMAScript's [LocalTZA].
    - A rejected promise or a thrown error is a value of an error type;
      [try]/[catch] is a match on it.
    - The upstream services are oracles handed to each function: what the
      n-th [fetch] of a call answers. *)

From Stdlib Require Import ZArith QArith Lia Bool.
From Stdlib Require Import List String Ascii DecimalString.
From Stdlib Require Import Sorting.Sorted Permutation RelationClasses.
From Stdlib Require Floats Uint63.

#[local] Set Warnings "-inexact-float".
Import ListNotations.

(* ================================================================== *)
(** * Rate limiting and retry logic: [makeApiRequestWithRetry] *)
(* ================================================================== *)

Module Retry.

Local Open Scope string_scope.
Local Open Scope nat_scope.

(** The part of a thrown value the [catch] block looks at. *)
Record JsError := mkJsError
  { err_name : string;
    err_code : option string;
    err_message : string }.

(** A node-fetch response: status line, the [retry-after] header and the
    payload that [response.json()] gives to the caller. *)
Record Response (B : Type) := mkResponse
  { status : Z;
    retry_after : option string;
    body : B }.

Arguments mkResponse {B} _ _ _.
Arguments status {B} _.
Arguments retry_after {B} _.
Arguments body {B} _.

(** [await fetch(url)] either resolves with a response (whatever its
    status) or rejects. *)
Inductive FetchOutcome (B : Type) : Type :=
| Responds (r : Response B)
| Rejects (e : JsError).

Arguments Responds {B} _.
Arguments Rejects {B} _.

(** One [setTimeout] pause, in seconds, as the code computes it. *)
Inductive Wait : Type :=
| WaitHeader (h : string)       (* parseInt(h), h the retry-after header *)
| WaitParsedBackoff (q : Q)     (* parseInt(String(backoffFactor ** attempt)) *)
| WaitBackoff (q : Q).          (* backoffFactor ** attempt *)

(** What a call did: its return value ([None] is [null]), how many
    requests it issued and the pauses it took, oldest first. *)
Record Trace (B : Type) := mkTrace
  { returned : option (Response B);
    requests : nat;
    sleeps : list Wait }.

Arguments mkTrace {B} _ _ _.
Arguments returned {B} _.
Arguments requests {B} _.
Arguments sleeps {B} _.

(** [response.ok] *)
Definition ok {B} (r : Response B) : bool :=
  ((200 <=? status r) && (status r <=? 299))%Z.

Definition string_of_Z (z : Z) : string :=
  NilZero.string_of_int (Z.to_int z).

(** [new Error(`HTTP ${response.status}`)] *)
Definition http_error (s : Z) : JsError :=
  {| err_name := "Error";
     err_code := None;
     err_message := "HTTP " ++ string_of_Z s |}.

Definition code_is (e : JsError) (c : string) : bool :=
  match err_code e with
  | Some c' => String.eqb c' c
  | None => false
  end.

(** The two branches of the [catch] block that go on to the retry test. *)
Definition is_timeout (e : JsError) : bool :=
  String.eqb (err_name e) "AbortError" || code_is e "ETIMEDOUT".

Definition is_connection_error (e : JsError) : bool :=
  code_is e "ECONNREFUSED" || code_is e "ENOTFOUND".

Definition retryable (e : JsError) : bool :=
  is_timeout e || is_connection_error e.

(** [backoffFactor ** attempt] *)
Definition backoff (backoffFactor : Q) (attempt : nat) : Q :=
  (backoffFactor ^ Z.of_nat attempt)%Q.

(** [response.headers.get('retry-after') || String(backoffFactor ** attempt)],
    handed to [parseInt]. *)
Definition rate_limit_wait (h : option string) (backoffFactor : Q)
  (attempt : nat) : Wait :=
  match h with
  | Some s => if String.eqb s "" then WaitParsedBackoff (backoff backoffFactor attempt)
              else WaitHeader s
  | None => WaitParsedBackoff (backoff backoffFactor attempt)
  end.

Definition finish {B} (r : option (Response B)) : Trace B :=
  mkTrace r 0 [].

(** One more request in front of the rest of the run, with the pause (if
    any) that followed it. *)
Definition after_request {B} (w : list Wait) (t : Trace B) : Trace B :=
  mkTrace (returned t) (S (requests t)) (w ++ sleeps t).

Section Loop.

Context {B : Type}.
Variable net : nat -> FetchOutcome B.   (* the answer to the n-th request *)
Variable maxRetries : nat.
Variable backoffFactor : Q.

(** The body of the [for] loop from [attempt] on; [remaining] is
    [maxRetries - attempt], the number of iterations left. *)
Fixpoint attempts (remaining attempt : nat) : Trace B :=
  match remaining with
  | O => finish None                      (* loop exit: return null *)
  | S remaining' =>
    let on_error (e : JsError) : Trace B :=
      if retryable e then
        if attempt <? maxRetries - 1 then
          after_request [WaitBackoff (backoff backoffFactor attempt)]
                        (attempts remaining' (S attempt))
        else after_request [] (finish None)
      else after_request [] (finish None) in
    match net attempt with
    | Responds r =>
      if (status r =? 429)%Z then
        after_request [rate_limit_wait (retry_after r) backoffFactor attempt]
                      (attempts remaining' (S attempt))
      else if (status r =? 403)%Z then after_request [] (finish None)
      else if (status r =? 401)%Z then after_request [] (finish None)
      else if negb (ok r) then on_error (http_error (status r))
      else after_request [] (finish (Some r))
    | Rejects e => on_error e
    end
  end.

Definition makeApiRequestWithRetry : Trace B :=
  attempts maxRetries 0.

End Loop.

End Retry.

(* ================================================================== *)
(** * The host's [Date]: time values and the civil calendar *)
(* ================================================================== *)

Module Calendar.

Local Open Scope Z_scope.

Definition msPerDay : Z := 86400000.

Definition Day (t : Z) : Z := t / msPerDay.
Definition TimeWithinDay (t : Z) : Z := t mod msPerDay.

Definition DaysInYear (y : Z) : Z :=
  if negb (y mod 4 =? 0) then 365
  else if negb (y mod 100 =? 0) then 366
  else if negb (y mod 400 =? 0) then 365
  else 366.

Definition DayFromYear (y : Z) : Z :=
  365 * (y - 1970) + (y - 1969) / 4 - (y - 1901) / 100 + (y - 1601) / 400.

(** The year a day number falls in: the largest [y] with
    [DayFromYear y <= day].  A year lasts 365.2425 days on average, which
    gives an estimate that is off by one at most; the two tests settle
    it. *)
Definition year_of_day (day : Z) : Z :=
  let y0 := 1970 + (day * 400) / 146097 in
  if DayFromYear (y0 + 1) <=? day then y0 + 1
  else if day <? DayFromYear y0 then y0 - 1
  else y0.

Definition YearFromTime (t : Z) : Z := year_of_day (Day t).

Definition InLeapYear (t : Z) : Z :=
  if DaysInYear (YearFromTime t) =? 366 then 1 else 0.

Definition DayWithinYear (t : Z) : Z :=
  Day t - DayFromYear (YearFromTime t).

Definition MonthFromTime (t : Z) : Z :=
  let d := DayWithinYear t in
  let l := InLeapYear t in
  if d <? 31 then 0
  else if d <? 59 + l then 1
  else if d <? 90 + l then 2
  else if d <? 120 + l then 3
  else if d <? 151 + l then 4
  else if d <? 181 + l then 5
  else if d <? 212 + l then 6
  else if d <? 243 + l then 7
  else if d <? 273 + l then 8
  else if d <? 304 + l then 9
  else if d <? 334 + l then 10
  else 11.

Definition DateFromTime (t : Z) : Z :=
  let d := DayWithinYear t in
  let l := InLeapYear t in
  match MonthFromTime t with
  | 0 => d + 1
  | 1 => d - 30
  | 2 => d - 58 - l
  | 3 => d - 89 - l
  | 4 => d - 119 - l
  | 5 => d - 150 - l
  | 6 => d - 180 - l
  | 7 => d - 211 - l
  | 8 => d - 242 - l
  | 9 => d - 272 - l
  | 10 => d - 303 - l
  | _ => d - 333 - l
  end.

(** Days from 1 January to the first of month [mn] (0-based). *)
Definition month_start (mn : Z) (leap : Z) : Z :=
  match mn with
  | 0 => 0
  | 1 => 31
  | 2 => 59 + leap
  | 3 => 90 + leap
  | 4 => 120 + leap
  | 5 => 151 + leap
  | 6 => 181 + leap
  | 7 => 212 + leap
  | 8 => 243 + leap
  | 9 => 273 + leap
  | 10 => 304 + leap
  | _ => 334 + leap
  end.

Definition MakeDay (year month date : Z) : Z :=
  let ym := year + month / 12 in
  let mn := month mod 12 in
  let leap := if DaysInYear ym =? 366 then 1 else 0 in
  DayFromYear ym + month_start mn leap + date - 1.

Definition MakeTime (hour min sec ms : Z) : Z :=
  hour * 3600000 + min * 60000 + sec * 1000 + ms.

Definition MakeDate (day time : Z) : Z := day * msPerDay + time.

(** A time value outside +-8.64e15 ms is NaN: the date is invalid. *)
Definition TimeClip (t : Z) : option Z :=
  if Z.abs t <=? 8640000000000000 then Some t else None.

Section LocalTime.

(** ECMAScript's [LocalTZA(t, isUTC)]: the host's offset from UTC in
    milliseconds, in effect at the instant [t] ([isUTC]) or at the local
    time [t] (not [isUTC]).  It changes with daylight saving. *)
Variable LocalTZA : Z -> bool -> Z.

Definition LocalTime (t : Z) : Z := t + LocalTZA t true.
Definition UTC (t : Z) : Z := t - LocalTZA t false.

Definition getFullYear (t : Z) : Z := YearFromTime (LocalTime t).
Definition getMonth (t : Z) : Z := MonthFromTime (LocalTime t).
Definition getDate (t : Z) : Z := DateFromTime (LocalTime t).

(** [d.setFullYear(year)] on a valid date: same local month, day of the
    month and time of day in the given year (29 February runs over into
    1 March when the year has none). *)
Definition setFullYear (t : Z) (year : Z) : option Z :=
  let lt := LocalTime t in
  TimeClip (UTC (MakeDate (MakeDay year (MonthFromTime lt) (DateFromTime lt))
                          (TimeWithinDay lt))).

End LocalTime.

(** [Date.UTC(year, month, date, hours, minutes, seconds, ms)]; a year in
    0..99 means 1900 + year. *)
Definition Date_UTC (year month date hour min sec ms : Z) : option Z :=
  let yr := if (0 <=? year) && (year <=? 99) then 1900 + year else year in
  TimeClip (MakeDate (MakeDay yr month date) (MakeTime hour min sec ms)).

(** [new Date(ms).toISOString().split('T')[0]]: the UTC calendar day.  The
    text "YYYY-MM-DD" names the day number and nothing else, so two such
    keys are equal exactly when the day numbers are; the key is kept as
    the day number. *)
Definition dayKey (t : Z) : Z := Day t.

End Calendar.

(* ================================================================== *)
(** * JavaScript numbers: IEEE doubles *)
(* ================================================================== *)

Module Num.

Import Floats.
Local Open Scope float_scope.

Definition two52 : float := 4503599627370496.

Definition is_nan (x : float) : bool := negb (PrimFloat.eqb x x).

(** [Number.isFinite(x)] *)
Definition is_finite (x : float) : bool := PrimFloat.ltb (abs x) infinity.

(** The largest integer not above [x]; NaN, the infinities, the zeros and
    the numbers from 2^52 on (integers already) are left as they are. *)
Definition floor (x : float) : float :=
  let a := abs x in
  if is_nan x || PrimFloat.leb two52 a || PrimFloat.eqb x 0 then x
  else
    let r := (a + two52) - two52 in                       (* |x| to the nearest integer *)
    let d := if PrimFloat.ltb a r then r - 1 else r in    (* |x| rounded down *)
    if PrimFloat.leb 0 x then d
    else if PrimFloat.eqb d a then - d else - (d + 1).

(** [Math.round(x)]: the nearest integer, a tie going up; the result is
    -0 when [x] is -0 or lies in [-0.5, 0). *)
Definition Math_round (x : float) : float :=
  let f := floor x in
  let r := if PrimFloat.leb 0.5 (x - f) then f + 1 else f in
  if PrimFloat.eqb r 0 && PrimFloat.ltb x 0 then - 0 else r.

(** An integer as a number (exact below 2^53). *)
Definition of_Z (z : Z) : float :=
  match z with
  | Z0 => 0
  | Zpos _ => of_uint63 (Uint63.of_Z z)
  | Zneg p => - of_uint63 (Uint63.of_Z (Zpos p))
  end.

Definition of_nat (n : nat) : float := of_Z (Z.of_nat n).

(** The integer part of a number; [None] for NaN and the infinities. *)
Definition trunc (x : float) : option Z :=
  match Prim2SF x with
  | S754_zero _ => Some 0%Z
  | S754_finite s m e =>
    let mag := (if 0 <=? e then Zpos m * 2 ^ e else Zpos m / 2 ^ (- e))%Z in
    Some (if s then - mag else mag)%Z
  | _ => None
  end.

(** [!x] on a number: 0, -0 and NaN. *)
Definition falsy (x : float) : bool := PrimFloat.eqb x 0 || is_nan x.

(** [Math.min(a, b)] and [Math.max(a, b)]: NaN wins, and -0 is below +0. *)
Definition Math_min2 (a b : float) : float :=
  if is_nan a then a else if is_nan b then b
  else if PrimFloat.ltb a b then a else if PrimFloat.ltb b a then b
  else if PrimFloat.ltb (1 / a) 0 then a else b.

Definition Math_max2 (a b : float) : float :=
  if is_nan a then a else if is_nan b then b
  else if PrimFloat.ltb b a then a else if PrimFloat.ltb a b then b
  else if PrimFloat.ltb (1 / a) 0 then b else a.

(** [a > b] *)
Definition gtb (a b : float) : bool := PrimFloat.ltb b a.

(** [a >= b] *)
Definition geb (a b : float) : bool := PrimFloat.leb b a.

End Num.

(* ================================================================== *)
(** * JavaScript values of a JSON payload *)
(* ================================================================== *)

Module Js.

Import Floats.
Local Open Scope float_scope.

(** What a field of a parsed payload can hold when the program never
    tests its type; [Undefined] is the absent field. *)
Inductive Value : Type :=
| Undefined
| Null
| Boolean (b : bool)
| Number (x : float)
| Text (s : string).

(** [v === undefined] *)
Definition is_undefined (v : Value) : bool :=
  match v with
  | Undefined => true
  | _ => false
  end.

(** [ToNumber(v)], applied by [-] and [*]; the reading of a string as a
    number is handed in. *)
Definition ToNumber (StringToNumber : string -> float) (v : Value) : float :=
  match v with
  | Undefined => nan
  | Null => 0
  | Boolean b => if b then 1 else 0
  | Number x => x
  | Text s => StringToNumber s
  end.

End Js.

(* ================================================================== *)
(** * Great-circle distance: [calculateDistance] *)
(* ================================================================== *)

Module Geo.

Import Floats.
Local Open Scope float_scope.

(** The functions of [Math] whose results ECMAScript leaves to the
    implementation, and the exponentiation operator. *)
Record MathLib := mkMathLib
  { Math_sin : float -> float;
    Math_cos : float -> float;
    Math_atan2 : float -> float -> float;    (* Math.atan2(y, x) *)
    Math_pow : float -> float -> float }.    (* base ** exponent *)

Definition Math_PI : float := 3.141592653589793.

(** [const R = 6371.0], the Earth's radius in km. *)
Definition earth_radius : float := 6371.

Definition toRad (deg : float) : float := (deg * Math_PI) / 180.

Definition calculateDistance (lib : MathLib) (lat1 lon1 lat2 lon2 : float) : float :=
  let dLat := toRad (lat2 - lat1) in
  let dLon := toRad (lon2 - lon1) in
  let a := Math_pow lib (Math_sin lib (dLat / 2)) 2 +
           Math_cos lib (toRad lat1) * Math_cos lib (toRad lat2) *
           Math_pow lib (Math_sin lib (dLon / 2)) 2 in
  let c := 2 * Math_atan2 lib (sqrt a) (sqrt (1 - a)) in
  earth_radius * c.

(** [Math.round(distance * 100) / 100] *)
Definition round2 (distance : float) : float := Num.Math_round (distance * 100) / 100.

(** The invariant of a Coordinate: degrees within range. *)
Definition valid_coordinate (lat lon : float) : Prop :=
  PrimFloat.leb (-90) lat = true /\ PrimFloat.leb lat 90 = true /\
  PrimFloat.leb (-180) lon = true /\ PrimFloat.leb lon 180 = true.

End Geo.

(* ================================================================== *)
(** * Daily forecasts: [getWeatherData] *)
(* ================================================================== *)

Module Weather.

Import Retry Calendar Num.
Import Floats.
Local Open Scope string_scope.
Local Open Scope list_scope.
Local Open Scope float_scope.

(** Errors are values: [Throw s] carries [String(err)]. *)
Inductive Result (A : Type) : Type :=
| Ok (a : A)
| Throw (err : string).

Arguments Ok {A} _.
Arguments Throw {A} _.

Definition bind {A C} (r : Result A) (k : A -> Result C) : Result C :=
  match r with
  | Ok a => k a
  | Throw e => Throw e
  end.

Notation "x <- r ;; k" := (bind r (fun x => k))
  (at level 61, r at next level, right associativity).

(** [x || 0] on an optional number. *)
Definition or0 (x : option float) : float :=
  match x with
  | Some q => if falsy q then 0 else q
  | None => 0
  end.

Record WeatherDetails := mkWeatherDetails
  { main : option string;
    description : option string;
    icon : option string }.

(** [item.main] of an intraday sample. *)
Record MainBlock := mkMainBlock
  { temp : float;
    feels_like : float;
    main_pressure : option float;
    main_humidity : option float }.

(** One entry of [data.list].  A field that the payload may leave out is
    an option; [dt] is in epoch seconds. *)
Record Sample := mkSample
  { dt : option Z;
    sample_main : option MainBlock;
    weather0 : option WeatherDetails;        (* item.weather?.[0] *)
    clouds_all : option float;               (* item.clouds?.all *)
    wind_speed_raw : option float;           (* item.wind?.speed *)
    wind_deg : option float;                 (* item.wind?.deg *)
    rain_3h : option float;                  (* item.rain?.['3h'] *)
    snow_3h : option float }.                (* item.snow?.['3h'] *)

Record WeatherTemperature := mkWeatherTemperature
  { day : float;
    min : float;
    max : float;
    morning : float;
    night : float }.

Record WeatherFeelsLike := mkWeatherFeelsLike
  { fl_day : float;
    fl_morning : float;
    fl_night : float }.

Record DailyWeather := mkDailyWeather
  { date : Z;            (* the instant (noon UTC) that the label spells out *)
    date_raw : Z;
    temperature : WeatherTemperature;
    feels_like_summary : WeatherFeelsLike;
    pressure : option float;
    humidity : option float;
    weather : WeatherDetails;
    clouds : float;
    wind_speed : float;
    wind_direction : float;
    precipitation : float;
    snow : float }.

Record Location := mkLocation
  { latitude : Js.Value;
    longitude : Js.Value;
    city : option string;
    country : option string }.

Record WeatherForecastResult := mkWeatherForecastResult
  { location : Location;
    forecasts : list DailyWeather;
    days_count : nat;
    error : option string;
    filtered_for_date : option (Z * Z * Z) }.   (* set by getNearbyLaunches *)

(** What [response.json()] gives for the forecast endpoint: a rejection
    (the body is not JSON) or an object with an optional [list] and an
    optional [city]. *)
Inductive Payload : Type :=
| Unparseable (err : string)
| Parsed (list_ : option (list Sample)) (city_name city_country : option string).

(** [Math.round(x * 10) / 10] *)
Definition round1 (x : float) : float := Math_round (x * 10) / 10.

(** [l.reduce((a, b) => a + b, 0)] *)
Definition sum (l : list float) : float := fold_left PrimFloat.add l 0.

(** [Math.min(...l)] and [Math.max(...l)] *)
Definition Math_min (l : list float) : float := fold_left Math_min2 l infinity.
Definition Math_max (l : list float) : float := fold_left Math_max2 l neg_infinity.

(** [l.reduce((a, b) => a + b, 0) / l.length] *)
Definition mean (l : list float) : float := sum l / of_nat (List.length l).

(** [new Date(item.dt * 1000)]: invalid when [dt] is missing or out of
    range. *)
Definition sample_time (i : Sample) : option Z :=
  match dt i with
  | Some s => TimeClip (s * 1000)%Z
  | None => None
  end.

Definition invalid_time : string := "RangeError: Invalid time value".
Definition no_main : string :=
  "TypeError: Cannot read properties of undefined (reading 'temp')".

(** [date.toISOString().split('T')[0]], which throws on an invalid date. *)
Definition sample_dayKey (i : Sample) : Result Z :=
  match sample_time i with
  | Some t => Ok (dayKey t)
  | None => Throw invalid_time
  end.

(** [new Date(i.dt * 1000).getUTCHours()] *)
Definition sample_hour (i : Sample) : Z :=
  match sample_time i with
  | Some t => ((t / 3600000) mod 24)%Z
  | None => 0%Z
  end.

(** [dailyMap]: buckets in the order their keys were first set. *)
Definition DailyMap := list (Z * list Sample).

Fixpoint push (k : Z) (item : Sample) (m : DailyMap) : DailyMap :=
  match m with
  | [] => [(k, [item])]
  | (k', items) :: rest =>
    if (k' =? k)%Z then (k', items ++ [item]) :: rest
    else (k', items) :: push k item rest
  end.

Fixpoint group (items : list Sample) (m : DailyMap) : Result DailyMap :=
  match items with
  | [] => Ok m
  | item :: rest =>
    k <- sample_dayKey item ;;
    group rest (push k item m)
  end.

(** [items.map(i => i.main.temp)] reads [i.main] of every sample. *)
Fixpoint mains (items : list Sample) : Result (list MainBlock) :=
  match items with
  | [] => Ok []
  | i :: rest =>
    match sample_main i with
    | Some m => ms <- mains rest ;; Ok (m :: ms)
    | None => Throw no_main
    end
  end.

Definition midday (i : Sample) : bool :=
  ((11 <=? sample_hour i) && (sample_hour i <=? 14))%Z.

(** One bucket turned into a [DailyWeather]. *)
Definition forecast_of (k : Z) (items : list Sample) : Result DailyWeather :=
  ms <- mains items ;;
  let temps := map temp ms in
  let feelsLikes := map feels_like ms in
  let minTemp := Math_min temps in
  let maxTemp := Math_max temps in
  let avgTemp := mean temps in
  match (match find midday items with Some i => Some i | None => hd_error items end) with
  | None => Throw no_main
  | Some middayItem =>
    (* new Date(dayKey + 'T12:00:00Z').toISOString() *)
    match TimeClip (k * msPerDay + 43200000) with
    | None => Throw invalid_time
    | Some noon =>
    match sample_main middayItem with
    | None => Throw no_main
    | Some mm =>
      Ok {| date := noon;
            date_raw := (k * msPerDay / 1000)%Z;
            temperature :=
              {| day := round1 avgTemp;
                 min := round1 minTemp;
                 max := round1 maxTemp;
                 morning := hd 0 temps;
                 night := last temps 0 |};
            feels_like_summary :=
              {| fl_day := round1 (mean feelsLikes);
                 fl_morning := hd 0 feelsLikes;
                 fl_night := last feelsLikes 0 |};
            pressure := main_pressure mm;
            humidity := main_humidity mm;
            weather :=
              {| main := match weather0 middayItem with Some w => main w | None => None end;
                 description := match weather0 middayItem with Some w => description w | None => None end;
                 icon := match weather0 middayItem with Some w => icon w | None => None end |};
            clouds := or0 (clouds_all middayItem);
            wind_speed := or0 (wind_speed_raw middayItem);
            wind_direction := or0 (wind_deg middayItem);
            precipitation := fold_left (fun acc i => acc + or0 (rain_3h i)) items 0;
            snow := fold_left (fun acc i => acc + or0 (snow_3h i)) items 0 |}
    end
    end
  end.

(** The loop over [dailyMap]; [dayCount] buckets were emitted so far. *)
Fixpoint emit (days : float) (dayCount : nat) (m : DailyMap)
  : Result (list DailyWeather) :=
  match m with
  | [] => Ok []
  | (k, items) :: rest =>
    if geb (of_nat dayCount) days then Ok []
    else
      f <- forecast_of k items ;;
      fs <- emit days (S dayCount) rest ;;
      Ok (f :: fs)
  end.

Definition aggregate (items : list Sample) (days : float) : Result (list DailyWeather) :=
  m <- group items [] ;;
  emit days 0%nat m.

Definition fetch_failed : string :=
  "Failed to fetch weather data after retries (rate limit or API issue)".
Definition no_data : string := "No weather data available".

(** The four ways [getWeatherData] returns. *)
Definition getWeatherData (net : nat -> FetchOutcome Payload)
  (latitude longitude : Js.Value) (days : float) : WeatherForecastResult :=
  let bare := mkLocation latitude longitude None None in
  match returned (makeApiRequestWithRetry net 3%nat 2%Q) with
  | None => mkWeatherForecastResult bare [] 0%nat (Some fetch_failed) None
  | Some response =>
    match body response with
    | Unparseable err => mkWeatherForecastResult bare [] 0%nat (Some err) None
    | Parsed None c n =>
      mkWeatherForecastResult (mkLocation latitude longitude c n) [] 0%nat (Some no_data) None
    | Parsed (Some items) c n =>
      match aggregate items days with
      | Throw err => mkWeatherForecastResult bare [] 0%nat (Some err) None
      | Ok fs =>
        mkWeatherForecastResult (mkLocation latitude longitude c n) fs (List.length fs) None None
      end
    end
  end.

End Weather.

(* ================================================================== *)
(** * Geocoding, the launch feed and [getNearbyLaunches] *)
(* ================================================================== *)

Module Launches.

Import Retry Calendar Num Weather.
Import Floats.
Local Open Scope string_scope.
Local Open Scope list_scope.
Local Open Scope float_scope.

(** ** Strings *)

(** [s.toLowerCase()] on the ASCII letters. *)
Definition lower_ascii (c : ascii) : ascii :=
  let n := nat_of_ascii c in
  if ((65 <=? n) && (n <=? 90))%nat then ascii_of_nat (n + 32) else c.

Fixpoint toLowerCase (s : string) : string :=
  match s with
  | EmptyString => EmptyString
  | String c s' => String (lower_ascii c) (toLowerCase s')
  end.

(** [s.includes(sub)] *)
Fixpoint includes (s sub : string) : bool :=
  String.prefix sub s ||
  match s with
  | EmptyString => false
  | String _ s' => includes s' sub
  end.

Definition is_digit (c : ascii) : bool :=
  ((48 <=? nat_of_ascii c) && (nat_of_ascii c <=? 57))%nat.

Fixpoint digits_prefix (n : nat) (s : string) : bool :=
  match n with
  | O => true
  | S n' =>
    match s with
    | EmptyString => false
    | String c s' => is_digit c && digits_prefix n' s'
    end
  end.

(** [s.match(/\d{4}/)] finds something. *)
Fixpoint match_year (s : string) : bool :=
  digits_prefix 4 s ||
  match s with
  | EmptyString => false
  | String _ s' => match_year s'
  end.

(** Truthiness of an optional string: [undefined], [null] and [""] are
    falsy. *)
Definition truthy (o : option string) : bool :=
  match o with
  | Some s => negb (String.eqb s "")
  | None => false
  end.

(** [o || d] on an optional string. *)
Definition or_else (o : option string) (d : string) : string :=
  match o with
  | Some s => if String.eqb s "" then d else s
  | None => d
  end.

(** ** Geocoding *)

Record GeocodeResult := mkGeocodeResult
  { name : string;
    local_name : string;
    geo_latitude : Js.Value;
    geo_longitude : Js.Value;
    geo_country : string;
    state : string }.

(** One match of the geocoding endpoint. *)
Record RawPlace := mkRawPlace
  { raw_name : string;
    local_names_en : option string;     (* res.local_names?.en *)
    lat : Js.Value;
    lon : Js.Value;
    raw_country : string;
    raw_state : option string }.

Inductive GeoPayload : Type :=
| GeoUnparseable (err : string)
| GeoNull
| GeoMatches (data : list RawPlace).

Definition geocodeLocation (net : nat -> FetchOutcome GeoPayload) : option GeocodeResult :=
  match returned (makeApiRequestWithRetry net 3%nat 2%Q) with
  | None => None
  | Some response =>
    match body response with
    | GeoMatches (res :: _) =>
      Some {| name := raw_name res;
              local_name := or_else (local_names_en res) (raw_name res);
              geo_latitude := lat res;
              geo_longitude := lon res;
              geo_country := raw_country res;
              state := or_else (raw_state res) "N/A" |}
    | _ => None
    end
  end.

(** ** Launch data *)

(** The weather snapshot attached to a matched launch. *)
Record Snapshot := mkSnapshot
  { snap_main : option string;
    snap_description : option string;
    snap_clouds : float;
    snap_humidity : float;
    snap_precipitation : float;
    snap_snow : float;
    snap_temperature : WeatherTemperature }.

Inductive VisibilityStatus : Type := Good | LowVisibility | NotVisible | Unknown.

(** The reason strings, by the template each is built from. *)
Inductive Reason : Type :=
| PoorWeather (weatherMain : string)           (* `Poor weather: ${...}` *)
| HighCloudCover (clouds : float)              (* `High cloud cover: ${clouds}%` *)
| HighHumidity (humidity : float)              (* `High humidity: ${humidity}%` *)
| HeavyPrecipitation (precipitation : float)   (* `Heavy precipitation: ${...}mm` *)
| HeavySnow (snow : float)                     (* `Heavy snow: ${snow}mm` *)
| NoForecast               (* "No weather forecast available for launch date" *)
| CheckFailed (err : string)                   (* `Error checking weather: ${...}` *)
| ClearConditions.                             (* 'Clear conditions expected' *)

Record Visibility := mkVisibility
  { vis_status : VisibilityStatus;
    can_be_seen : bool;
    reasons : list Reason }.

(** A launch record, with the fields the correlation reads and writes
    (the other projected fields are copied from the feed and never looked
    at again). *)
Record Launch := mkLaunch
  { id : string;
    launch_name : string;
    status_name : string;
    launch_service_provider : string;
    net_raw : option string;
    latitude : Js.Value;
    longitude : Js.Value;
    distance_km : option float;
    weather_forecast : option Snapshot;
    visibility : option Visibility }.

(** One entry of the feed's [results]. *)
Record RawLaunch := mkRawLaunch
  { raw_id : string;
    raw_launch_name : string;
    raw_status_name : option string;       (* launch.status.name *)
    raw_provider_name : option string;     (* launch.launch_service_provider.name *)
    raw_net : option string;               (* launch.net *)
    pad_latitude : Js.Value;               (* launch.pad?.latitude *)
    pad_longitude : Js.Value }.            (* launch.pad?.longitude *)

Inductive LaunchPayload : Type :=
| LaunchUnparseable (err : string)
| LaunchResults (results : option (list RawLaunch)).

(** [filter && !name.toLowerCase().includes(filter.toLowerCase())] *)
Definition filtered_out (filter : option string) (name : string) : bool :=
  match filter with
  | Some f =>
    negb (String.eqb f "") && negb (includes (toLowerCase name) (toLowerCase f))
  | None => false
  end.

(** The scan of the feed; [found] launches were kept so far. *)
Fixpoint scan (statusFilter providerFilter : option string) (maxResults : float)
  (launches : list RawLaunch) (found : nat) : list Launch :=
  match launches with
  | [] => []
  | launch :: rest =>
    let statusName := or_else (raw_status_name launch) "" in
    let providerName := or_else (raw_provider_name launch) "" in
    if filtered_out statusFilter statusName then
      scan statusFilter providerFilter maxResults rest found
    else if filtered_out providerFilter providerName then
      scan statusFilter providerFilter maxResults rest found
    else
      let launchData :=
        {| id := raw_id launch;
           launch_name := raw_launch_name launch;
           status_name := statusName;
           launch_service_provider := providerName;
           net_raw := raw_net launch;
           latitude := pad_latitude launch;
           longitude := pad_longitude launch;
           distance_km := None;
           weather_forecast := None;
           visibility := None |} in
      launchData ::
      (if geb (of_nat (S found)) maxResults then []
       else scan statusFilter providerFilter maxResults rest (S found))
  end.

Definition getNextLaunch (net : nat -> FetchOutcome LaunchPayload)
  (statusFilter providerFilter : option string) (maxResults : float) : list Launch :=
  match returned (makeApiRequestWithRetry net (Z.to_nat 10000) 3%Q) with
  | None => []
  | Some response =>
    match body response with
    | LaunchResults (Some results) =>
      scan statusFilter providerFilter maxResults results 0%nat
    | _ => []
    end
  end.

(** ** The nearby-launch pipeline *)

(** What the host provides: the [Date] constructor on a string, the
    offset of local time, the clock at the three places that read it,
    the implementation-defined part of [Math] and the reading of a string
    as a number. *)
Record Host := mkHost
  { parseDate : string -> option Z;   (* new Date(text).getTime(), None for NaN *)
    LocalTZA : Z -> bool -> Z;        (* LocalTZA(t, isUTC) *)
    now_resolve : Z;                  (* new Date() in the date resolution *)
    now_cutoff : Z;                   (* Date.now() for the cutoff *)
    now_start : Z;                    (* new Date() for the window start *)
    math : Geo.MathLib;
    StringToNumber : string -> float }.

(** What the three upstream services answer to each request; the forecast
    request carries the coordinate as the geocoder gave it. *)
Record Upstream := mkUpstream
  { geocoding : string -> nat -> FetchOutcome GeoPayload;
    forecast : Js.Value -> Js.Value -> nat -> FetchOutcome Payload;
    launch_feed : nat -> FetchOutcome LaunchPayload }.

(** A [Date] object: its time value, [None] when invalid. *)
Definition Date : Type := option Z.

Definition new_Date (h : Host) (text : string) : Date :=
  match parseDate h text with
  | Some t => TimeClip t
  | None => None
  end.

(** Relational operators on dates: false as soon as one side is NaN. *)
Definition date_cmp (test : Z -> Z -> bool) (a b : Date) : bool :=
  match a, b with
  | Some x, Some y => test x y
  | _, _ => false
  end.

Definition date_lt : Date -> Date -> bool := date_cmp Z.ltb.
Definition date_le : Date -> Date -> bool := date_cmp Z.leb.
Definition date_gt : Date -> Date -> bool := date_cmp Z.gtb.
Definition date_ge : Date -> Date -> bool := date_cmp Z.geb.

(** [new Date(Date.UTC(d.getFullYear(), d.getMonth(), d.getDate(), h, m, s, ms))] *)
Definition utc_day_at (h : Host) (d : Date) (hour min sec ms : Z) : Date :=
  match d with
  | Some t =>
    Date_UTC (getFullYear (LocalTZA h) t) (getMonth (LocalTZA h) t)
             (getDate (LocalTZA h) t) hour min sec ms
  | None => None
  end.

Record Resolved := mkResolved
  { targetDate : Date;
    dateStart : Date;
    dateEnd : Date }.

(** Step 2, the body of the inner [try]: [None] is the "Invalid date"
    throw that the inner [catch] turns into an error result. *)
Definition resolveDate (h : Host) (specificDate : string) : option Resolved :=
  match new_Date h specificDate with
  | None => None
  | Some t =>
    let now := now_resolve h in
    let target :=
      if (t <? now)%Z && negb (match_year specificDate)
      then setFullYear (LocalTZA h) t (getFullYear (LocalTZA h) now + 1)
      else Some t in
    Some {| targetDate := target;
            dateStart := utc_day_at h target 0 0 0 0;
            dateEnd := utc_day_at h target 23 59 59 999 |}
  end.

(** [date.toISOString().split('T')[0]] *)
Definition toISOString_day (d : Date) : Result Z :=
  match d with
  | Some t => Ok (dayKey t)
  | None => Throw invalid_time
  end.

(** The day key of [new Date(forecast.date_raw * 1000)]. *)
Definition forecast_day (f : DailyWeather) : Result Z :=
  toISOString_day (TimeClip (date_raw f * 1000)).

(** [weatherData.forecasts.filter(...)] for the target day. *)
Fixpoint filter_day (targetDay : Z) (fs : list DailyWeather) : Result (list DailyWeather) :=
  match fs with
  | [] => Ok []
  | f :: rest =>
    d <- forecast_day f ;;
    kept <- filter_day targetDay rest ;;
    Ok (if (d =? targetDay)%Z then f :: kept else kept)
  end.

(** [targetDate.toLocaleDateString('en-US', ...)]: the local year, month
    and day that the label spells out. *)
Definition date_label (h : Host) (t : Z) : Z * Z * Z :=
  (getFullYear (LocalTZA h) t, getMonth (LocalTZA h) t, getDate (LocalTZA h) t).

(** [new Date(x)] for a number [x]: the fraction is dropped; NaN, an
    infinity or a time out of range make the date invalid. *)
Definition new_Date_number (x : float) : Date :=
  match trunc x with
  | Some t => TimeClip t
  | None => None
  end.

(** The date test of step 5; [specific] says whether a date was given. *)
Definition outside_window (specific : bool)
  (launchTime dateStart_ dateEnd_ cutoff startDate : Date) : bool :=
  if specific
  then negb (date_ge launchTime dateStart_ && date_le launchTime dateEnd_)
  else date_gt launchTime cutoff || date_lt launchTime startDate.

(** Step 5: the launches inside the window and within range, each with
    its [distance_km]. *)
Definition number (h : Host) (v : Js.Value) : float :=
  Js.ToNumber (StringToNumber h) v.

Fixpoint filter_nearby (h : Host) (locData : GeocodeResult) (maxDistanceKm : float)
  (specific : bool) (dateStart_ dateEnd_ cutoff startDate : Date)
  (launches : list Launch) : list Launch :=
  match launches with
  | [] => []
  | launch :: rest =>
    let others :=
      filter_nearby h locData maxDistanceKm specific dateStart_ dateEnd_
                    cutoff startDate rest in
    if negb (truthy (net_raw launch)) then others
    else if outside_window specific (new_Date h (or_else (net_raw launch) ""))
                           dateStart_ dateEnd_ cutoff startDate then others
    else
      if Js.is_undefined (latitude launch) || Js.is_undefined (longitude launch)
      then others
      else
        let distance :=
          Geo.calculateDistance (math h)
            (number h (geo_latitude locData)) (number h (geo_longitude locData))
            (number h (latitude launch)) (number h (longitude launch)) in
        if PrimFloat.leb distance maxDistanceKm then
          {| id := id launch;
             launch_name := launch_name launch;
             status_name := status_name launch;
             launch_service_provider := launch_service_provider launch;
             net_raw := net_raw launch;
             latitude := latitude launch;
             longitude := longitude launch;
             distance_km := Some (Geo.round2 distance);
             weather_forecast := weather_forecast launch;
             visibility := visibility launch |} :: others
        else others
  end.

(** [a.distance_km || 0] *)
Definition sort_key (l : Launch) : float := or0 (distance_km l).

(** The comparator [(a, b) => (a.distance_km || 0) - (b.distance_km || 0)]. *)
Definition by_distance (a b : Launch) : float := sort_key a - sort_key b.

(** Whether the sort leaves [a] in front of [b]: the comparator's result
    is not above 0, a NaN counting as 0. *)
Definition stays_before (a b : Launch) : bool :=
  let v := by_distance a b in
  is_nan v || PrimFloat.leb v 0.

(** [nearby.sort(comparator)]: a stable sort, as insertion from the
    right. *)
Fixpoint insert (x : Launch) (l : list Launch) : list Launch :=
  match l with
  | [] => [x]
  | y :: rest =>
    if stays_before x y then x :: y :: rest
    else y :: insert x rest
  end.

Fixpoint sort (l : list Launch) : list Launch :=
  match l with
  | [] => []
  | x :: rest => insert x (sort rest)
  end.

Definition bad_descriptors : list string :=
  ["clouds"; "rain"; "thunderstorm"; "snow"; "drizzle"; "mist"; "fog"].

(** [list.includes(s)] *)
Definition list_includes (l : list string) (s : string) : bool :=
  existsb (String.eqb s) l.

(** The five adverse-condition flags of a matched forecast. *)
Record Flags := mkFlags
  { badWeather : bool;
    highClouds : bool;
    highHumidity : bool;
    highPrecipitation : bool;
    highSnow : bool }.

Definition weatherMain_of (mw : DailyWeather) : string :=
  toLowerCase (or_else (main (weather mw)) "").

(** The four readings, each [matchingWeather.x || 0]. *)
Definition clouds_of (mw : DailyWeather) : float := or0 (Some (clouds mw)).
Definition humidity_of (mw : DailyWeather) : float := or0 (humidity mw).
Definition precipitation_of (mw : DailyWeather) : float := or0 (Some (precipitation mw)).
Definition snow_of (mw : DailyWeather) : float := or0 (Some (snow mw)).

Definition flags_of (mw : DailyWeather) : Flags :=
  {| badWeather := list_includes bad_descriptors (weatherMain_of mw);
     highClouds := gtb (clouds_of mw) 30;
     highHumidity := gtb (humidity_of mw) 80;
     highPrecipitation := gtb (precipitation_of mw) 5;
     highSnow := gtb (snow_of mw) 5 |}.

(** The [push]es of the matched branch, in order. *)
Definition visibilityReasons (mw : DailyWeather) : list Reason :=
  let f := flags_of mw in
  (if badWeather f then [PoorWeather (weatherMain_of mw)] else []) ++
  (if highClouds f then [HighCloudCover (clouds_of mw)] else []) ++
  (if highHumidity f then [HighHumidity (humidity_of mw)] else []) ++
  (if highPrecipitation f then [HeavyPrecipitation (precipitation_of mw)] else []) ++
  (if highSnow f then [HeavySnow (snow_of mw)] else []).

Definition visibilityStatus (mw : DailyWeather) : VisibilityStatus :=
  let f := flags_of mw in
  let n := List.length (visibilityReasons mw) in
  if (3 <=? n)%nat || highSnow f || (badWeather f && highClouds f) then NotVisible
  else if (1 <=? n)%nat then LowVisibility
  else Good.

Definition snapshot_of (mw : DailyWeather) : Snapshot :=
  {| snap_main := main (weather mw);
     snap_description := description (weather mw);
     snap_clouds := clouds_of mw;
     snap_humidity := humidity_of mw;
     snap_precipitation := precipitation_of mw;
     snap_snow := snow_of mw;
     snap_temperature := temperature mw |}.

(** The first forecast whose day key is the launch's. *)
Fixpoint matchingWeather (launchDay : Z) (fs : list DailyWeather) : Result (option DailyWeather) :=
  match fs with
  | [] => Ok None
  | f :: rest =>
    d <- forecast_day f ;;
    if (d =? launchDay)%Z then Ok (Some f) else matchingWeather launchDay rest
  end.

Definition seen (s : VisibilityStatus) : bool :=
  match s with
  | Good | LowVisibility => true
  | _ => false
  end.

(** Step 6 for one launch: the verdict and, when a forecast matched, the
    weather snapshot. *)
Definition check_visibility (h : Host) (fs : list DailyWeather) (launch : Launch) : Launch :=
  let verdict : VisibilityStatus * list Reason * option Snapshot :=
    if truthy (net_raw launch) then
      match (launchDay <- toISOString_day (new_Date h (or_else (net_raw launch) "")) ;;
             matchingWeather launchDay fs) with
      | Ok (Some mw) => (visibilityStatus mw, visibilityReasons mw, Some (snapshot_of mw))
      | Ok None => (Unknown, [NoForecast], None)
      | Throw err => (Unknown, [CheckFailed err], None)
      end
    else (Good, [], None) in
  let '(st, rs, snap) := verdict in
  {| id := id launch;
     launch_name := launch_name launch;
     status_name := status_name launch;
     launch_service_provider := launch_service_provider launch;
     net_raw := net_raw launch;
     latitude := latitude launch;
     longitude := longitude launch;
     distance_km := distance_km launch;
     weather_forecast :=
       match snap with
       | Some sn => Some sn
       | None => weather_forecast launch
       end;
     visibility :=
       Some {| vis_status := st;
               can_be_seen := seen st;
               reasons := match rs with [] => [ClearConditions] | _ => rs end |} |}.

Record SearchParams := mkSearchParams
  { maxDistanceKm : float;
    daysAhead : float;
    specific_date : option (Z * Z * Z);
    date_filter_active : bool }.

Record Found := mkFound
  { found_location : GeocodeResult;
    search_params : SearchParams;
    launches_found : nat;
    launches : list Launch;
    found_weather : option WeatherForecastResult }.   (* result.weather *)

(** What the caller gets: an error object or the assembled result. *)
Inductive NearbyResult : Type :=
| Failure (error_ : string) (location_ : string)
| Success (r : Found).

Definition dquote : string := String (ascii_of_nat 34) EmptyString.

Definition invalid_date_format (specificDate : string) : string :=
  String.append "Invalid date format: "
    (String.append specificDate
      (String.append ". Try "
        (String.append dquote
          (String.append "Nov 10"
            (String.append dquote
              (String.append " or "
                (String.append dquote
                  (String.append "2025-11-10" dquote)))))))).

(** The body of the outer [try]. *)
Definition nearby_body (h : Host) (up : Upstream) (location_ : string)
  (maxDistanceKm_ : float) (daysAhead_ maxResults : float) (specificDate : option string)
  : Result NearbyResult :=
  match geocodeLocation (geocoding up location_) with
  | None => Ok (Failure (String.append "Location not found: " location_) location_)
  | Some locData =>
    let specific := truthy specificDate in
    let text := or_else specificDate "" in
    match (if specific then resolveDate h text
           else Some (mkResolved None None None)) with
    | None => Ok (Failure (invalid_date_format text) location_)
    | Some dates =>
      let fetched :=
        getWeatherData (forecast up (geo_latitude locData) (geo_longitude locData))
                       (geo_latitude locData) (geo_longitude locData)
                       (if specific then 16 else daysAhead_) in
      weatherData <-
        (if specific then
           targetDay <- toISOString_day (targetDate dates) ;;
           filteredWeather <- filter_day targetDay (forecasts fetched) ;;
           Ok {| Weather.location := Weather.location fetched;
                 forecasts := filteredWeather;
                 days_count := List.length filteredWeather;
                 Weather.error := Weather.error fetched;
                 filtered_for_date := option_map (date_label h) (targetDate dates) |}
         else Ok fetched) ;;
      let found := getNextLaunch (launch_feed up) (Some "Go") None maxResults in
      let cutoff :=
        if specific then dateEnd dates
        else new_Date_number (of_Z (now_cutoff h) + daysAhead_ * 86400000) in
      let startDate :=
        if specific then dateStart dates else Some (now_start h) in
      let nearby :=
        sort (filter_nearby h locData maxDistanceKm_ specific (dateStart dates)
                            (dateEnd dates) cutoff startDate found) in
      let checked := map (check_visibility h (forecasts weatherData)) nearby in
      Ok (Success
            {| found_location := locData;
               search_params :=
                 {| maxDistanceKm := maxDistanceKm_;
                    daysAhead := daysAhead_;
                    specific_date :=
                      if specific then option_map (date_label h) (targetDate dates)
                      else None;
                    date_filter_active := specific |};
               launches_found := List.length nearby;
               launches := checked;
               found_weather :=
                 if (List.length nearby =? 0)%nat then Some weatherData else None |})
    end
  end.

(** [getNearbyLaunches]: the body under the outer [try]/[catch]. *)
Definition getNearbyLaunches (h : Host) (up : Upstream) (location_ : string)
  (maxDistanceKm_ : float) (daysAhead_ maxResults : float) (specificDate : option string)
  : NearbyResult :=
  match nearby_body h up location_ maxDistanceKm_ daysAhead_ maxResults specificDate with
  | Ok r => r
  | Throw err => Failure (String.append "Processing error: " err) location_
  end.

End Launches.

(* ================================================================== *)
(** * Vocabulary of the properties and sample inputs *)
(* ================================================================== *)

Module RetryCases.

Import Retry.
Local Open Scope nat_scope.

(** A rejection that the [catch] block retries: a timeout or a connection
    error. *)
Definition network_failure {B} (o : FetchOutcome B) : Prop :=
  exists e, o = Rejects e /\ retryable e = true.

(** A response with a status that is neither 2xx nor 429, 403 or 401. *)
Definition other_status {B} (r : Response B) : Prop :=
  ok r = false /\ status r <> 429%Z /\ status r <> 403%Z /\ status r <> 401%Z.

(** The pauses after [k] retried failures that began at [attempt]. *)
Definition backoffs (backoffFactor : Q) (attempt k : nat) : list Wait :=
  map (fun i => WaitBackoff (backoff backoffFactor i)) (seq attempt k).

(** [k] requests and their pauses in front of a run. *)
Definition after_requests {B} (k : nat) (w : list Wait) (t : Trace B) : Trace B :=
  mkTrace (returned t) (k + requests t) (w ++ sleeps t).

Definition plain (s : Z) : Response unit := mkResponse s None tt.

Definition timeout_error : JsError :=
  mkJsError "AbortError" None "The operation was aborted".

(** A server that answers 500 once and 200 from then on. *)
Definition net_500_then_200 (n : nat) : FetchOutcome unit :=
  match n with
  | O => Responds (plain 500)
  | S _ => Responds (plain 200)
  end.

(** Two timeouts, then a 404. *)
Definition net_timeouts_then_404 (n : nat) : FetchOutcome unit :=
  match n with
  | 0 | 1 => Rejects timeout_error
  | _ => Responds (plain 404)
  end.

Definition net_403 (n : nat) : FetchOutcome unit := Responds (plain 403).

End RetryCases.

Module CalendarCases.

Import Calendar.
Local Open Scope Z_scope.

(** The number of days of month [mn] (0-based). *)
Definition days_in_month (mn leap : Z) : Z :=
  match mn with
  | 1 => 28 + leap
  | 3 | 5 | 8 | 10 => 30
  | _ => 31
  end.

(** The local time [tl] is one the host's clock shows: turned into an
    instant and back it is [tl] again.  A local time that a change of
    offset skips (the hour lost when daylight saving begins) is not. *)
Definition on_the_clock (LocalTZA : Z -> bool -> Z) (tl : Z) : Prop :=
  LocalTime LocalTZA (UTC LocalTZA tl) = tl.

(** The local time that [setFullYear(year)] builds from the date [t]. *)
Definition moved_to_year (LocalTZA : Z -> bool -> Z) (t year : Z) : Z :=
  MakeDate (MakeDay year (getMonth LocalTZA t) (getDate LocalTZA t))
           (TimeWithinDay (LocalTime LocalTZA t)).

(** A host on UTC. *)
Definition utc_zone (t : Z) (isUTC : bool) : Z := 0.

(** Sydney from October 2026 to March 2029: ten hours ahead of UTC, eleven
    while daylight saving is on, which it is from the first Sunday of
    October, 02:00 standard time, to the first Sunday of April, 03:00
    daylight time.  A local time counts as daylight time when, read as
    daylight time, it falls in that season. *)
Definition sydney_summer (t : Z) : bool :=
  ((1791043200000 <=? t) && (t <? 1806768000000)) ||
  ((1822492800000 <=? t) && (t <? 1838217600000)) ||
  ((1853942400000 <=? t) && (t <? 1869667200000)).

Definition sydney_zone (t : Z) (isUTC : bool) : Z :=
  if isUTC then (if sydney_summer t then 39600000 else 36000000)
  else (if sydney_summer (t - 39600000) then 39600000 else 36000000).

Ltac split_ifs :=
  repeat match goal with
         | |- context [if ?c <? ?d then _ else _] =>
           let H := fresh "H" in destruct (Z.ltb_spec c d) as [H | H]
         end.

End CalendarCases.

Module IEEE.

Import Floats.
Local Open Scope Z_scope.

(** The value of a double that is not NaN, in units of 2^-1074 (the
    smallest positive double); the infinities lie beyond every finite
    value. *)
Definition rank (x : spec_float) : Z :=
  match x with
  | S754_zero _ => 0
  | S754_finite s m e => cond_Zopp s (Zpos m * 2 ^ (e + 1074))
  | S754_infinity s => cond_Zopp s (2 ^ 2100)
  | S754_nan => 0
  end.

Definition not_nan (x : spec_float) : bool :=
  match x with
  | S754_nan => false
  | _ => true
  end.

Definition finite (x : spec_float) : bool :=
  match x with
  | S754_zero _ | S754_finite _ _ _ => true
  | _ => false
  end.

(** The outcome of a rounding that cannot underflow to zero. *)
Definition signed_nonzero (s : bool) (x : spec_float) : Prop :=
  (exists m e, x = S754_finite s m e) \/ x = S754_infinity s.

End IEEE.

Module GeoCases.

Import Floats Num Geo.
Local Open Scope float_scope.

(** What the properties of the distance ask of the host's [Math]: the
    special values that ECMAScript prescribes ([sin] and [**] at +0,
    [atan2(+0, 1)]), a sine that is odd, a square that is even and a
    cosine within [-1, 1]. *)
Record conforming (lib : MathLib) : Prop := mkConforming
  { sin_zero : Math_sin lib 0 = 0;
    sin_odd : forall x, Math_sin lib (- x) = - Math_sin lib x;
    cos_range : forall x, is_finite x = true ->
                          PrimFloat.leb (abs (Math_cos lib x)) 1 = true;
    square_zero : Math_pow lib 0 2 = 0;
    square_even : forall x, Math_pow lib (- x) 2 = Math_pow lib x 2;
    atan2_zero : Math_atan2 lib 0 1 = 0 }.

(** The [a] of the haversine formula. *)
Definition haversine_a (lib : MathLib) (lat1 lon1 lat2 lon2 : float) : float :=
  Math_pow lib (Math_sin lib (toRad (lat2 - lat1) / 2)) 2 +
  Math_cos lib (toRad lat1) * Math_cos lib (toRad lat2) *
  Math_pow lib (Math_sin lib (toRad (lon2 - lon1) / 2)) 2.

(** The values that V8 returns at the arguments the examples reach: the
    special values, [sin] and [cos] at 0.15666075365901102 (8.976 degrees)
    and [sin] at 1.5707963267948966 (90 degrees).  Elsewhere the leading
    term stands in ([x] for [sin x], 1 for [cos x], [y / x] for
    [atan2(y, x)]); no example reaches it.  [x ** 2] is the rounded
    square. *)
Definition sin_values (x : float) : float :=
  if PrimFloat.eqb x 0.15666075365901102 then 0.15602072940371603
  else if PrimFloat.eqb x 1.5707963267948966 then 1
  else x.

Definition table_sin (x : float) : float :=
  if PrimFloat.eqb x 0 then x
  else if PrimFloat.ltb x 0 then - sin_values (- x)
  else sin_values x.

Definition table_cos (x : float) : float :=
  if PrimFloat.eqb (abs x) 0.15666075365901102 then 0.9877537810589907
  else if is_finite x then 1
  else nan.

Definition table_atan2 (y x : float) : float :=
  if is_nan y || is_nan x then nan
  else if PrimFloat.eqb y 0 && PrimFloat.ltb 0 x then y
  else if PrimFloat.ltb 0 y && PrimFloat.eqb x 0 then 1.5707963267948966
  else y / x.

Definition table_pow (x y : float) : float :=
  if PrimFloat.eqb y 2 then x * x else nan.

Definition table_math : MathLib :=
  mkMathLib table_sin table_cos table_atan2 table_pow.

End GeoCases.

Module WeatherCases.

Import Floats.
Import Retry Calendar Num Weather.
Local Open Scope list_scope.
Local Open Scope float_scope.

Definition sample_at (t : Z) (temp_ : float) : Sample :=
  mkSample (Some t) (Some (mkMainBlock temp_ temp_ (Some 1013) (Some 70)))
           None None None None None None.

Definition answers (items : list Sample) (n : nat) : FetchOutcome Payload :=
  Responds (mkResponse 200 None (Parsed (Some items) None None)).

(** The coordinate (0, 0) as two numbers. *)
Definition zero : Js.Value := Js.Number 0.

(** Three samples of 7.35 degrees on 10 November 2025 (00:00, 03:00 and
    12:00 UTC). *)
Definition three_of_7_35 : list Sample :=
  [sample_at 1762732800 7.35; sample_at 1762743600 7.35; sample_at 1762776000 7.35].

(** One sample on each of 10, 11, 12 and 13 November 2025. *)
Definition four_days : list Sample :=
  [sample_at 1762732800 8; sample_at 1762819200 9;
   sample_at 1762905600 10; sample_at 1762992000 11].

(** One sample at the last instant a [Date] can hold, 13 September
    275760, 00:00 UTC. *)
Definition last_day : list Sample := [sample_at 8640000000000 8].

Definition well_formed_on (k : Z) (i : Sample) : Prop :=
  sample_dayKey i = Ok k /\ sample_main i <> None.

(** [lo] is a least and [hi] a greatest element of [l]. *)
Definition extremes (lo hi : float) (l : list float) : Prop :=
  In lo l /\ In hi l /\
  (Forall (fun t => is_nan t = false) l ->
   Forall (fun t => PrimFloat.leb lo t = true /\ PrimFloat.leb t hi = true) l).

End WeatherCases.

Module LaunchCases.

Import Floats.
Import Retry Calendar Num Weather Launches CalendarCases GeoCases WeatherCases.
Local Open Scope string_scope.
Local Open Scope list_scope.

Definition no_geocoder : Upstream :=
  mkUpstream (fun _ _ => Rejects (mkJsError "Error" (Some "ENOTFOUND") "getaddrinfo"))
             (fun _ _ _ => Rejects (mkJsError "Error" (Some "ENOTFOUND") "getaddrinfo"))
             (fun _ => Rejects (mkJsError "Error" (Some "ENOTFOUND") "getaddrinfo")).

(** A host on UTC with the table of [Math] values; [parse] is its [Date]
    constructor on a string and [now] what its clock shows. *)
Definition utc_host (parse : string -> option Z) (now : Z) : Host :=
  mkHost parse utc_zone now now now table_math (fun _ => nan).

Definition plain_host : Host := utc_host (fun _ => None) 1762732800000.

(** A host whose clock shows 13 September 275760, the last representable
    day, and whose [Date] reads every text as 31 December 2001. *)
Definition far_future_host : Host :=
  utc_host (fun _ => Some 1009756800000%Z) 8639999999999000.

(** A host whose clock shows 15 December 2026 and whose [Date] reads every
    text as 1 January 2001 (what V8 makes of "Jan 1"). *)
Definition jan_host : Host := utc_host (fun _ => Some 978307200000%Z) 1797292800000.

(** A host in Sydney whose clock shows 1 January 2027, 00:30 local
    daylight time (31 December 2026, 13:30 UTC), and whose [Date] reads
    every text as 1 July 2001, 23:30 local time (what V8 makes of
    "Jul 1 23:30" there). *)
Definition sydney_host : Host :=
  mkHost (fun _ => Some 993994200000%Z) sydney_zone
         1798723800000 1798723800000 1798723800000 table_math (fun _ => nan).

Definition b2n (b : bool) : nat := if b then 1 else 0.

Definition count_true (f : Flags) : nat :=
  b2n (badWeather f) + b2n (highClouds f) + b2n (highHumidity f) +
  b2n (highPrecipitation f) + b2n (highSnow f).

(** The classification in the words of the specification. *)
Definition reference_status (f : Flags) : VisibilityStatus :=
  if (3 <=? count_true f)%nat || highSnow f || (badWeather f && highClouds f)
  then NotVisible
  else if (1 <=? count_true f)%nat then LowVisibility
  else Good.

Local Open Scope float_scope.

Definition weather_with (descriptor : string) (clouds_ humidity_ precipitation_ snow_ : float)
  : DailyWeather :=
  mkDailyWeather 1762776000000 1762732800
    (mkWeatherTemperature 10 8 12 8 12) (mkWeatherFeelsLike 9 7 11)
    (Some 1013) (Some humidity_) (mkWeatherDetails (Some descriptor) None None)
    clouds_ 0 0 precipitation_ snow_.

Definition clear_day : DailyWeather := weather_with "Clear" 0 0 0 0.
Definition rainy_day : DailyWeather := weather_with "rain" 50 0 0 0.

(** A host whose [Date] reads every text as noon of 10 November 2025. *)
Definition noon_host : Host := utc_host (fun _ => Some 1762776000000%Z) 1762732800000.

Definition launch_at (la lo : float) : Launch :=
  mkLaunch "id" "Test flight" "Go for Launch" "Provider"
           (Some "2025-11-10T12:00:00Z") (Js.Number la) (Js.Number lo) None None None.

Local Open Scope Z_scope.

Definition representable_day (k : Z) : Prop := -100000000 <= k <= 100000000.

Definition keys_representable (m : DailyMap) : Prop :=
  Forall (fun b => representable_day (fst b)) m.

Definition has_day (f : DailyWeather) : Prop := exists k, forecast_day f = Ok k.

Local Open Scope float_scope.

(** [a] is not after [b] in the order of the sort key. *)
Definition key_le (a b : Launch) : Prop :=
  PrimFloat.leb (sort_key a) (sort_key b) = true.

(** The distance that step 5 computes for a launch. *)
Definition pad_distance (h : Host) (locData : GeocodeResult) (l : Launch) : float :=
  Geo.calculateDistance (math h)
    (number h (geo_latitude locData)) (number h (geo_longitude locData))
    (number h (latitude l)) (number h (longitude l)).

(** A launch kept for the query at [locData]: it has a nominal time, its
    pad latitude and longitude are not [undefined], the distance computed
    for it is at most the maximum, and it carries that distance
    rounded. *)
Definition near (h : Host) (locData : GeocodeResult) (maxDistanceKm_ : float)
  (l : Launch) : Prop :=
  truthy (net_raw l) = true /\
  Js.is_undefined (latitude l) = false /\
  Js.is_undefined (longitude l) = false /\
  PrimFloat.leb (pad_distance h locData l) maxDistanceKm_ = true /\
  distance_km l = Some (Geo.round2 (pad_distance h locData l)).

(** [b] is the flight [a], whatever was attached to it on the way. *)
Definition same_flight (a b : Launch) : Prop :=
  id b = id a /\ launch_name b = launch_name a /\ status_name b = status_name a /\
  launch_service_provider b = launch_service_provider a /\ net_raw b = net_raw a /\
  latitude b = latitude a /\ longitude b = longitude a.

(** [new Date(launch.net_raw)] *)
Definition launch_time (h : Host) (l : Launch) : Date :=
  new_Date h (or_else (net_raw l) "").

(** The launches [getNearbyLaunches] asks the feed for. *)
Definition go_launches (up : Upstream) (maxResults : float) : list Launch :=
  getNextLaunch (launch_feed up) (Some "Go"%string) None maxResults.

Definition equator_place : RawPlace :=
  mkRawPlace "Null Island" None (Js.Number 0) (Js.Number 0) "XX" None.

Definition null_island : GeocodeResult :=
  mkGeocodeResult "Null Island" "Null Island" (Js.Number 0) (Js.Number 0) "XX" "N/A".

(** A launch whose pad has [null] for its latitude and its longitude. *)
Definition null_pad_launch : RawLaunch :=
  mkRawLaunch "a1" "Test flight" (Some "Go for Launch"%string) (Some "Provider"%string)
              (Some "2025-11-12T00:00:00Z"%string) Js.Null Js.Null.

(** A launch from the other side of the globe, at (0, 180). *)
Definition antipode_launch : RawLaunch :=
  mkRawLaunch "b2" "Far flight" (Some "Go for Launch"%string) (Some "Provider"%string)
              (Some "2025-11-12T00:00:00Z"%string) (Js.Number 0) (Js.Number 180).

(** The geocoder finds (0, 0); the forecast service has no sample list;
    the feed lists [feed]. *)
Definition equator_upstream (feed : list RawLaunch) : Upstream :=
  mkUpstream (fun _ _ => Responds (mkResponse 200 None (GeoMatches [equator_place])))
             (fun _ _ _ => Responds (mkResponse 200 None (Parsed None None None)))
             (fun _ => Responds (mkResponse 200 None (LaunchResults (Some feed)))).

(** The same, with a forecast service that answers with [samples]. *)
Definition forecast_upstream (samples : list Sample) (feed : list RawLaunch) : Upstream :=
  mkUpstream (fun _ _ => Responds (mkResponse 200 None (GeoMatches [equator_place])))
             (fun _ _ => answers samples)
             (fun _ => Responds (mkResponse 200 None (LaunchResults (Some feed)))).

(** The host reads every launch time as midnight of 12 November 2025; the
    clock shows midnight of 10 November 2025. *)
Definition equator_host : Host := utc_host (fun _ => Some 1762905600000%Z) 1762732800000.

End LaunchCases.

(* ================================================================== *)
(** * Properties of the retry loop *)
(* ================================================================== *)

Module RetryFacts.

Import Retry.
Import RetryCases.
Local Open Scope nat_scope.

Lemma http_error_not_retryable : forall s, retryable (http_error s) = false.
Proof. intros s. reflexivity. Qed.

Section Runs.

Context {B : Type}.
Variable net : nat -> FetchOutcome B.
Variable maxRetries : nat.
Variable backoffFactor : Q.

Lemma attempts_other_status : forall remaining attempt r,
  net attempt = Responds r -> other_status r ->
  attempts net maxRetries backoffFactor (S remaining) attempt = mkTrace None 1 [].
Proof.
  intros remaining attempt r Hnet (Hok & H429 & H403 & H401).
  cbn [attempts]. rewrite Hnet.
  apply Z.eqb_neq in H429, H403, H401.
  rewrite H429, H403, H401, Hok. cbn [negb].
  rewrite http_error_not_retryable. reflexivity.
Qed.

Lemma attempts_terminal_status : forall remaining attempt r,
  net attempt = Responds r -> status r = 403%Z \/ status r = 401%Z ->
  attempts net maxRetries backoffFactor (S remaining) attempt = mkTrace None 1 [].
Proof.
  intros remaining attempt r Hnet [H | H]; cbn [attempts]; rewrite Hnet, H; reflexivity.
Qed.

Lemma attempts_success : forall remaining attempt r,
  net attempt = Responds r -> ok r = true ->
  attempts net maxRetries backoffFactor (S remaining) attempt = mkTrace (Some r) 1 [].
Proof.
  intros remaining attempt r Hnet Hok.
  cbn [attempts]. rewrite Hnet.
  unfold ok in *. apply andb_true_iff in Hok as [Hlo Hhi].
  apply Z.leb_le in Hlo, Hhi.
  replace (status r =? 429)%Z with false by (symmetry; apply Z.eqb_neq; lia).
  replace (status r =? 403)%Z with false by (symmetry; apply Z.eqb_neq; lia).
  replace (status r =? 401)%Z with false by (symmetry; apply Z.eqb_neq; lia).
  replace ((200 <=? status r)%Z && (status r <=? 299)%Z) with true
    by (symmetry; apply andb_true_iff; split; apply Z.leb_le; lia).
  reflexivity.
Qed.

(** Retried failures peel off one by one, each followed by its pause, as
    long as an attempt is left after them. *)
Lemma attempts_network_prefix : forall k remaining attempt,
  k < remaining -> attempt + remaining = maxRetries ->
  (forall i, i < k -> network_failure (net (attempt + i))) ->
  attempts net maxRetries backoffFactor remaining attempt =
  after_requests k (backoffs backoffFactor attempt k)
    (attempts net maxRetries backoffFactor (remaining - k) (attempt + k)).
Proof.
  induction k as [|k IH]; intros remaining attempt Hk Hsum Hfail.
  - rewrite Nat.sub_0_r, Nat.add_0_r. unfold after_requests, backoffs. cbn.
    destruct (attempts net maxRetries backoffFactor remaining attempt); reflexivity.
  - destruct remaining as [|remaining]; [lia|].
    destruct (Hfail 0) as (e & He & Hre); [lia|].
    rewrite Nat.add_0_r in He.
    cbn [attempts]. rewrite He, Hre.
    replace (attempt <? maxRetries - 1) with true by (symmetry; apply Nat.ltb_lt; lia).
    rewrite (IH remaining (S attempt)); [| lia | lia |].
    + replace (S remaining - S k) with (remaining - k) by lia.
      replace (attempt + S k) with (S attempt + k) by lia.
      unfold after_request, after_requests, backoffs. cbn. reflexivity.
    + intros i Hi. replace (S attempt + i) with (attempt + S i) by lia.
      apply Hfail. lia.
Qed.

Lemma attempts_last_failure : forall attempt,
  attempt + 1 = maxRetries -> network_failure (net attempt) ->
  attempts net maxRetries backoffFactor 1 attempt = mkTrace None 1 [].
Proof.
  intros attempt Hsum (e & He & Hre).
  cbn [attempts]. rewrite He, Hre.
  replace (attempt <? maxRetries - 1) with false by (symmetry; apply Nat.ltb_ge; lia).
  reflexivity.
Qed.

End Runs.

(** ** The claims about [makeApiRequestWithRetry] *)

(** C1, as stated, fails: with a budget of three attempts, a 500 followed
    by a 200 does not return the 200.  The thrown "HTTP 500" error is
    neither a timeout nor a connection error, so the [catch] block returns
    null after the single request, without a pause. *)
Lemma http_500_then_200_returns_null :
  other_status (plain 500) /\
  ok (plain 200) = true /\
  makeApiRequestWithRetry net_500_then_200 3 2 = mkTrace None 1 [] /\
  returned (makeApiRequestWithRetry net_500_then_200 3 2) <> Some (plain 200).
Proof.
  repeat split; try discriminate; reflexivity.
Qed.

(** C1, amended: after [k < maxAttempts] retried network failures (each
    followed by a pause of backoffFactor^attempt seconds),
    - a response whose status is neither 2xx nor 429, 403 or 401 ends the
      call with null at once: it is not retried;
    - a 2xx response is returned;
    - one more network failure on the last attempt ends the call with
      null after [maxAttempts] requests. *)
Theorem other_status_is_terminal_network_failures_retry :
  forall (B : Type) (net : nat -> FetchOutcome B) (maxAttempts : nat)
         (backoffFactor : Q) (k : nat),
    k < maxAttempts ->
    (forall i, i < k -> network_failure (net i)) ->
    (forall r, net k = Responds r -> other_status r ->
       makeApiRequestWithRetry net maxAttempts backoffFactor =
       mkTrace None (S k) (backoffs backoffFactor 0 k)) /\
    (forall r, net k = Responds r -> ok r = true ->
       makeApiRequestWithRetry net maxAttempts backoffFactor =
       mkTrace (Some r) (S k) (backoffs backoffFactor 0 k)) /\
    (network_failure (net k) -> S k = maxAttempts ->
       makeApiRequestWithRetry net maxAttempts backoffFactor =
       mkTrace None maxAttempts (backoffs backoffFactor 0 k)).
Proof.
  intros B net maxAttempts backoffFactor k Hk Hfail.
  assert (Hrun : makeApiRequestWithRetry net maxAttempts backoffFactor =
                 after_requests k (backoffs backoffFactor 0 k)
                   (attempts net maxAttempts backoffFactor (maxAttempts - k) k)).
  { unfold makeApiRequestWithRetry.
    rewrite (attempts_network_prefix net maxAttempts backoffFactor k maxAttempts 0);
      [reflexivity | lia | lia | exact Hfail]. }
  destruct (maxAttempts - k) as [|remaining] eqn:Hrem; [lia|].
  repeat split.
  - intros r Hnet Hother. rewrite Hrun.
    rewrite (attempts_other_status net maxAttempts backoffFactor remaining k r Hnet Hother).
    unfold after_requests. cbn. rewrite app_nil_r. f_equal. lia.
  - intros r Hnet Hok. rewrite Hrun.
    rewrite (attempts_success net maxAttempts backoffFactor remaining k r Hnet Hok).
    unfold after_requests. cbn. rewrite app_nil_r. f_equal. lia.
  - intros Hlast Hend. rewrite Hrun.
    assert (remaining = 0) by lia. subst remaining.
    rewrite (attempts_last_failure net maxAttempts backoffFactor k); [| lia | exact Hlast].
    unfold after_requests. cbn. rewrite app_nil_r. f_equal. lia.
Qed.

(** The amended C1 at work: two timeouts, then a 404, with five attempts
    allowed: three requests, pauses of 2^0 and 2^1 seconds, null. *)
Lemma other_status_is_terminal_witness :
  makeApiRequestWithRetry net_timeouts_then_404 5 2 =
  mkTrace None 3 (backoffs 2 0 2).
Proof.
  assert (Hk : 2 < 5) by lia.
  assert (Hfail : forall i, i < 2 -> network_failure (net_timeouts_then_404 i)).
  { intros i Hi. exists timeout_error.
    destruct i as [|[|i]]; [split; reflexivity | split; reflexivity | lia]. }
  destruct (other_status_is_terminal_network_failures_retry
              unit net_timeouts_then_404 5 2 2 Hk Hfail) as [Hother _].
  apply (Hother (plain 404)).
  - reflexivity.
  - repeat split; try discriminate; reflexivity.
Defined.

(** C2: with at least one attempt allowed, a first response of 403 or 401
    makes the call return null after exactly one request and no pause,
    whatever the budget. *)
Theorem forbidden_or_unauthorized_never_retried :
  forall (B : Type) (net : nat -> FetchOutcome B) (maxAttempts : nat)
         (backoffFactor : Q) (r : Response B),
    1 <= maxAttempts ->
    net 0 = Responds r ->
    status r = 403%Z \/ status r = 401%Z ->
    makeApiRequestWithRetry net maxAttempts backoffFactor = mkTrace None 1 [].
Proof.
  intros B net maxAttempts backoffFactor r Hmax Hnet Hstatus.
  unfold makeApiRequestWithRetry.
  destruct maxAttempts as [|remaining]; [lia|].
  exact (attempts_terminal_status net (S remaining) backoffFactor remaining 0 r Hnet Hstatus).
Qed.

Lemma forbidden_never_retried_witness :
  makeApiRequestWithRetry net_403 3 2 = mkTrace None 1 [].
Proof.
  apply (forbidden_or_unauthorized_never_retried unit net_403 3 2 (plain 403)).
  - lia.
  - reflexivity.
  - left. reflexivity.
Defined.

End RetryFacts.

(* ================================================================== *)
(** * Properties of the calendar *)
(* ================================================================== *)

Module CalendarFacts.

Import Calendar.
Import CalendarCases.
Local Open Scope Z_scope.

Lemma DayFromYear_step : forall y, DayFromYear (y + 1) = DayFromYear y + DaysInYear y.
Proof.
  intros y. unfold DayFromYear, DaysInYear.
  destruct (y mod 4 =? 0) eqn:H4; destruct (y mod 100 =? 0) eqn:H100;
    destruct (y mod 400 =? 0) eqn:H400; cbn [negb];
    rewrite ?Z.eqb_eq, ?Z.eqb_neq in *; Z.div_mod_to_equations; lia.
Qed.

Lemma DayFromYear_mono : forall a b, a <= b -> DayFromYear a <= DayFromYear b.
Proof.
  intros a b H. unfold DayFromYear. Z.div_mod_to_equations. lia.
Qed.

Lemma year_of_day_spec : forall d,
  DayFromYear (year_of_day d) <= d < DayFromYear (year_of_day d + 1).
Proof.
  intros d. unfold year_of_day. cbv zeta.
  set (y0 := 1970 + d * 400 / 146097).
  assert (Hlo : DayFromYear (y0 - 1) <= d).
  { subst y0. unfold DayFromYear. Z.div_mod_to_equations. lia. }
  assert (Hhi : d < DayFromYear (y0 + 2)).
  { subst y0. unfold DayFromYear. Z.div_mod_to_equations. lia. }
  destruct (DayFromYear (y0 + 1) <=? d) eqn:H1.
  - apply Z.leb_le in H1. replace (y0 + 1 + 1) with (y0 + 2) by lia. lia.
  - apply Z.leb_gt in H1.
    destruct (d <? DayFromYear y0) eqn:H0.
    + apply Z.ltb_lt in H0. replace (y0 - 1 + 1) with y0 by lia. lia.
    + apply Z.ltb_ge in H0. lia.
Qed.

Lemma year_of_day_unique : forall d y,
  DayFromYear y <= d < DayFromYear (y + 1) -> year_of_day d = y.
Proof.
  intros d y H. pose proof (year_of_day_spec d) as Hs.
  destruct (Z.lt_trichotomy (year_of_day d) y) as [Hlt | [Heq | Hgt]]; [|exact Heq|].
  - pose proof (DayFromYear_mono (year_of_day d + 1) y). lia.
  - pose proof (DayFromYear_mono (y + 1) (year_of_day d)). lia.
Qed.

Lemma DaysInYear_cases : forall y, DaysInYear y = 365 \/ DaysInYear y = 366.
Proof.
  intros y. unfold DaysInYear.
  destruct (y mod 4 =? 0), (y mod 100 =? 0), (y mod 400 =? 0); cbn; auto.
Qed.

Lemma Day_MakeDate : forall day time,
  0 <= time < msPerDay -> Day (MakeDate day time) = day.
Proof.
  intros day time H. unfold Day, MakeDate, msPerDay in *.
  rewrite Z.add_comm, Z.div_add by lia.
  rewrite Z.div_small by lia. lia.
Qed.

Lemma TimeWithinDay_range : forall t, 0 <= TimeWithinDay t < msPerDay.
Proof.
  intros t. unfold TimeWithinDay, msPerDay. apply Z.mod_pos_bound. lia.
Qed.

Lemma DayWithinYear_range : forall t,
  0 <= DayWithinYear t < DaysInYear (YearFromTime t).
Proof.
  intros t. unfold DayWithinYear, YearFromTime.
  pose proof (year_of_day_spec (Day t)) as H.
  rewrite DayFromYear_step in H. lia.
Qed.

Lemma InLeapYear_cases : forall t,
  (InLeapYear t = 0 /\ DaysInYear (YearFromTime t) = 365) \/
  (InLeapYear t = 1 /\ DaysInYear (YearFromTime t) = 366).
Proof.
  intros t. unfold InLeapYear.
  destruct (DaysInYear_cases (YearFromTime t)) as [H | H]; rewrite H; cbn; auto.
Qed.

Lemma month_and_date_range : forall t,
  0 <= MonthFromTime t <= 11 /\
  1 <= DateFromTime t <= days_in_month (MonthFromTime t) (InLeapYear t).
Proof.
  intros t. unfold DateFromTime.
  pose proof (DayWithinYear_range t) as Hd.
  destruct (InLeapYear_cases t) as [[Hl Hy] | [Hl Hy]]; rewrite Hy in Hd;
    unfold MonthFromTime; rewrite Hl; cbv zeta; split_ifs; cbn; lia.
Qed.

Lemma days_in_month_le_31 : forall mn leap, 0 <= leap <= 1 -> days_in_month mn leap <= 31.
Proof.
  intros mn leap H. unfold days_in_month.
  destruct mn as [|p|p]; try lia.
  do 4 (destruct p as [p|p|]; try lia).
Qed.

Lemma month_cases : forall m, 0 <= m <= 11 ->
  m = 0 \/ m = 1 \/ m = 2 \/ m = 3 \/ m = 4 \/ m = 5 \/
  m = 6 \/ m = 7 \/ m = 8 \/ m = 9 \/ m = 10 \/ m = 11.
Proof. intros m H. lia. Qed.

Lemma MakeDay_offset : forall y m dt, 0 <= m <= 11 ->
  MakeDay y m dt =
  DayFromYear y + month_start m (if DaysInYear y =? 366 then 1 else 0) + dt - 1.
Proof.
  intros y m dt H. unfold MakeDay.
  rewrite Z.div_small, Z.mod_small by lia.
  cbv zeta. rewrite Z.add_0_r. reflexivity.
Qed.

Lemma MakeDay_in_year : forall y m dt,
  0 <= m <= 11 -> 1 <= dt <= 31 ->
  DayFromYear y <= MakeDay y m dt < DayFromYear (y + 1).
Proof.
  intros y m dt Hm Hdt. rewrite MakeDay_offset by exact Hm.
  rewrite DayFromYear_step.
  destruct (DaysInYear_cases y) as [Hy | Hy]; rewrite Hy; cbn [Z.eqb Pos.eqb];
    destruct (month_cases m Hm) as [-> | [-> | [-> | [-> | [-> | [-> |
                                    [-> | [-> | [-> | [-> | [-> | ->]]]]]]]]]]];
    cbn [month_start]; lia.
Qed.

(** The year of a date built from a year, a month 0..11 and a day 1..31. *)
Lemma YearFromTime_MakeDate : forall y m dt time,
  0 <= m <= 11 -> 1 <= dt <= 31 -> 0 <= time < msPerDay ->
  YearFromTime (MakeDate (MakeDay y m dt) time) = y.
Proof.
  intros y m dt time Hm Hdt Htime. unfold YearFromTime.
  rewrite Day_MakeDate by exact Htime.
  apply year_of_day_unique. apply MakeDay_in_year; assumption.
Qed.

(** Month and day survive when the day exists in that month of the year. *)
Lemma month_and_date_MakeDate : forall y m dt time,
  0 <= m <= 11 ->
  1 <= dt <= days_in_month m (if DaysInYear y =? 366 then 1 else 0) ->
  0 <= time < msPerDay ->
  MonthFromTime (MakeDate (MakeDay y m dt) time) = m /\
  DateFromTime (MakeDate (MakeDay y m dt) time) = dt.
Proof.
  intros y m dt time Hm Hdt Htime.
  set (t' := MakeDate (MakeDay y m dt) time).
  assert (Hleap : 0 <= (if DaysInYear y =? 366 then 1 else 0) <= 1)
    by (destruct (DaysInYear y =? 366); lia).
  assert (Hy : YearFromTime t' = y).
  { apply YearFromTime_MakeDate; try assumption.
    pose proof (days_in_month_le_31 m _ Hleap). lia. }
  assert (Hd : DayWithinYear t' =
               month_start m (if DaysInYear y =? 366 then 1 else 0) + dt - 1).
  { unfold DayWithinYear. rewrite Hy. subst t'.
    rewrite Day_MakeDate by exact Htime. rewrite MakeDay_offset by exact Hm. lia. }
  assert (Hl : InLeapYear t' = if DaysInYear y =? 366 then 1 else 0).
  { unfold InLeapYear. rewrite Hy. reflexivity. }
  clearbody t'.
  assert (Hmonth : MonthFromTime t' = m).
  { unfold MonthFromTime. rewrite Hd, Hl. cbv zeta.
    destruct (DaysInYear y =? 366);
      destruct (month_cases m Hm) as [-> | [-> | [-> | [-> | [-> | [-> |
                                      [-> | [-> | [-> | [-> | [-> | ->]]]]]]]]]]];
      cbn [month_start days_in_month] in *; split_ifs; lia. }
  split; [exact Hmonth|].
  unfold DateFromTime. rewrite Hmonth, Hd, Hl.
  destruct (DaysInYear y =? 366);
    destruct (month_cases m Hm) as [-> | [-> | [-> | [-> | [-> | [-> |
                                    [-> | [-> | [-> | [-> | [-> | ->]]]]]]]]]]];
    cbn [month_start]; lia.
Qed.

Lemma DayFromYear_lower : DayFromYear (-271820) = -99999744.
Proof. reflexivity. Qed.

Lemma DayFromYear_upper : DayFromYear 275760 = 99999744.
Proof. reflexivity. Qed.

Section LocalTimeFacts.

Variable LocalTZA : Z -> bool -> Z.

(** [setFullYear] lands in the year it is given, on a valid date, for
    every year whose days are all representable, provided the local time
    it builds is one the clock shows and the offset there is at most a
    day; the month and the day of the month stay unless the date was
    29 February and the year has none. *)
Lemma setFullYear_spec : forall t y,
  -271820 <= y <= 275759 ->
  Z.abs (LocalTZA (moved_to_year LocalTZA t y) false) <= msPerDay ->
  on_the_clock LocalTZA (moved_to_year LocalTZA t y) ->
  exists t',
    setFullYear LocalTZA t y = Some t' /\
    getFullYear LocalTZA t' = y /\
    (~ (getMonth LocalTZA t = 1 /\ getDate LocalTZA t = 29) ->
     getMonth LocalTZA t' = getMonth LocalTZA t /\
     getDate LocalTZA t' = getDate LocalTZA t).
Proof.
  intros t y Hy. unfold moved_to_year, on_the_clock, setFullYear, getFullYear, getMonth, getDate.
  set (lt := LocalTime LocalTZA t).
  destruct (month_and_date_range lt) as [Hm Hdt].
  pose proof (TimeWithinDay_range lt) as Htw.
  assert (Hleap : 0 <= InLeapYear lt <= 1).
  { destruct (InLeapYear_cases lt) as [[H _] | [H _]]; lia. }
  pose proof (days_in_month_le_31 (MonthFromTime lt) _ Hleap) as H31.
  set (v := MakeDate (MakeDay y (MonthFromTime lt) (DateFromTime lt)) (TimeWithinDay lt)).
  intros Htz Hclock.
  assert (Hin : DayFromYear y <= MakeDay y (MonthFromTime lt) (DateFromTime lt)
                < DayFromYear (y + 1)).
  { apply MakeDay_in_year; lia. }
  assert (Hlo : DayFromYear (-271820) <= DayFromYear y) by (apply DayFromYear_mono; lia).
  assert (Hhi : DayFromYear (y + 1) <= DayFromYear 275760) by (apply DayFromYear_mono; lia).
  rewrite DayFromYear_lower in Hlo. rewrite DayFromYear_upper in Hhi.
  exists (UTC LocalTZA v). split; [|split].
  - unfold TimeClip.
    replace (Z.abs (UTC LocalTZA v) <=? 8640000000000000) with true; [reflexivity|].
    symmetry. apply Z.leb_le. unfold UTC.
    assert (Hv : -8639977881600000 <= v < 8639977881600000)
      by (subst v; unfold MakeDate, msPerDay in *; lia).
    unfold msPerDay in Htz. lia.
  - rewrite Hclock. subst v. apply YearFromTime_MakeDate; lia.
  - intros Hfeb. rewrite Hclock. subst v.
    apply month_and_date_MakeDate; try lia.
    split; [lia|].
    destruct (DaysInYear y =? 366); destruct (InLeapYear_cases lt) as [[Hl _] | [Hl _]];
      rewrite Hl in Hdt;
      destruct (month_cases _ Hm) as [E | [E | [E | [E | [E | [E |
                                     [E | [E | [E | [E | [E | E]]]]]]]]]]];
      rewrite E in *; cbn [days_in_month] in *; lia.
Qed.

End LocalTimeFacts.

End CalendarFacts.

(* ================================================================== *)
(** * Properties of IEEE doubles *)
(* ================================================================== *)

Module IEEEFacts.
Import Floats IEEE.
Local Open Scope Z_scope.

Lemma digits2_pos_bounds : forall m : positive,
  2 ^ (Zpos (digits2_pos m) - 1) <= Zpos m < 2 ^ Zpos (digits2_pos m).
Proof.
  induction m as [m IH | m IH |]; cbn [digits2_pos].
  - rewrite Pos2Z.inj_succ.
    replace (Z.succ (Zpos (digits2_pos m)) - 1) with (Z.succ (Zpos (digits2_pos m) - 1)) by lia.
    rewrite !Z.pow_succ_r by lia. lia.
  - rewrite Pos2Z.inj_succ.
    replace (Z.succ (Zpos (digits2_pos m)) - 1) with (Z.succ (Zpos (digits2_pos m) - 1)) by lia.
    rewrite !Z.pow_succ_r by lia. lia.
  - cbn. lia.
Qed.

Lemma digits2_pos_le : forall (m : positive) (k : Z),
  Zpos m < 2 ^ k -> Zpos (digits2_pos m) <= k.
Proof.
  intros m k H. destruct (Z.le_gt_cases (Zpos (digits2_pos m)) k) as [|Hgt]; [assumption|].
  exfalso. pose proof (digits2_pos_bounds m) as [Hlo _].
  assert (2 ^ k <= 2 ^ (Zpos (digits2_pos m) - 1)).
  { destruct (Z.le_gt_cases 0 k).
    - apply Z.pow_le_mono_r; lia.
    - rewrite (Z.pow_neg_r 2 k) by lia. apply Z.pow_nonneg. lia. }
  lia.
Qed.

(** What validity says of a finite double. *)
Lemma bounded_inv : forall m e,
  bounded prec emax m e = true ->
  -1074 <= e <= 971 /\ Zpos (digits2_pos m) <= 53 /\
  (-1074 < e -> Zpos (digits2_pos m) = 53).
Proof.
  intros m e H. unfold bounded, canonical_mantissa, fexp, emin, prec, emax in H.
  apply andb_true_iff in H as [Hc He].
  apply Z.eqb_eq in Hc. apply Z.leb_le in He. lia.
Qed.

Lemma finite_rank_bound : forall m e,
  bounded prec emax m e = true ->
  0 < Zpos m * 2 ^ (e + 1074) < 2 ^ 2100.
Proof.
  intros m e H. destruct (bounded_inv m e H) as (He & Hd & _).
  pose proof (digits2_pos_bounds m) as [_ Hm].
  assert (Hm53 : Zpos m < 2 ^ 53).
  { eapply Z.lt_le_trans; [exact Hm|]. apply Z.pow_le_mono_r; lia. }
  assert (Hp : 0 < 2 ^ (e + 1074)) by (apply Z.pow_pos_nonneg; lia).
  assert (Hq : 2 ^ (e + 1074) < 2 ^ 2046) by (apply Z.pow_lt_mono_r; lia).
  split; [lia|].
  apply Z.lt_le_trans with (2 ^ 53 * 2 ^ 2046).
  - apply Z.mul_lt_mono_nonneg; lia.
  - rewrite <- Z.pow_add_r by lia. apply Z.pow_le_mono_r; lia.
Qed.

Lemma compare_cont_Eq : forall a b : positive,
  Pos.compare_cont Eq a b = (Zpos a ?= Zpos b).
Proof. reflexivity. Qed.

Lemma cond_Zopp_compare : forall a b, (Z.opp a ?= Z.opp b) = CompOpp (a ?= b).
Proof. intros a b. rewrite Z.compare_opp. apply Z.compare_antisym. Qed.

(** Comparison of two valid doubles is comparison of their ranks. *)
Lemma SFcompare_rank : forall a b,
  valid_binary a = true -> valid_binary b = true ->
  not_nan a = true -> not_nan b = true ->
  SFcompare a b = Some (rank a ?= rank b).
Proof.
  intros a b Va Vb Na Nb.
  destruct a as [sa | sa | | sa ma ea]; try discriminate;
  destruct b as [sb | sb | | sb mb eb]; try discriminate; cbn [valid_binary] in *.
  - reflexivity.
  - destruct sb; reflexivity.
  - pose proof (finite_rank_bound mb eb Vb).
    cbn [SFcompare rank]. destruct sb; cbn [cond_Zopp]; f_equal; symmetry.
    + apply Z.compare_gt_iff. lia.
    + apply Z.compare_lt_iff. lia.
  - destruct sa; reflexivity.
  - destruct sa, sb; reflexivity.
  - pose proof (finite_rank_bound mb eb Vb).
    cbn [SFcompare rank]. destruct sa; cbn [cond_Zopp]; f_equal; symmetry.
    + apply Z.compare_lt_iff. destruct sb; cbn [cond_Zopp]; lia.
    + apply Z.compare_gt_iff. destruct sb; cbn [cond_Zopp]; lia.
  - pose proof (finite_rank_bound ma ea Va).
    cbn [SFcompare rank]. destruct sa; cbn [cond_Zopp]; f_equal; symmetry.
    + apply Z.compare_lt_iff. lia.
    + apply Z.compare_gt_iff. lia.
  - pose proof (finite_rank_bound ma ea Va).
    cbn [SFcompare rank]. destruct sb; cbn [cond_Zopp]; f_equal; symmetry.
    + apply Z.compare_gt_iff. destruct sa; cbn [cond_Zopp]; lia.
    + apply Z.compare_lt_iff. destruct sa; cbn [cond_Zopp]; lia.
  - pose proof (finite_rank_bound ma ea Va) as Ha.
    pose proof (finite_rank_bound mb eb Vb) as Hb.
    destruct (bounded_inv ma ea Va) as (Hea & Hda & Hna).
    destruct (bounded_inv mb eb Vb) as (Heb & Hdb & Hnb).
    pose proof (digits2_pos_bounds ma) as [Hma_lo Hma_hi].
    pose proof (digits2_pos_bounds mb) as [Hmb_lo Hmb_hi].
    assert (Hlt : forall m1 e1 m2 e2,
              -1074 <= e1 -> e1 < e2 ->
              Zpos m1 < 2 ^ 53 -> 2 ^ 52 <= Zpos m2 ->
              Zpos m1 * 2 ^ (e1 + 1074) < Zpos m2 * 2 ^ (e2 + 1074)).
    { intros m1 e1 m2 e2 H1 H2 H3 H4.
      replace (e2 + 1074) with ((e2 - e1) + (e1 + 1074)) by lia.
      rewrite (Z.pow_add_r 2 (e2 - e1) (e1 + 1074)) by lia. rewrite Z.mul_assoc.
      apply Z.mul_lt_mono_pos_r; [apply Z.pow_pos_nonneg; lia|].
      apply Z.lt_le_trans with (2 ^ 52 * 2 ^ 1);
        [replace (2 ^ 52 * 2 ^ 1) with (2 ^ 53) by reflexivity; exact H3|].
      apply Z.mul_le_mono_nonneg; try lia.
      apply Z.pow_le_mono_r; lia. }
    assert (Hma53 : Zpos ma < 2 ^ 53).
    { eapply Z.lt_le_trans; [exact Hma_hi|]. apply Z.pow_le_mono_r; lia. }
    assert (Hmb53 : Zpos mb < 2 ^ 53).
    { eapply Z.lt_le_trans; [exact Hmb_hi|]. apply Z.pow_le_mono_r; lia. }
    assert (Hcmp : (Zpos ma * 2 ^ (ea + 1074) ?= Zpos mb * 2 ^ (eb + 1074)) =
                   match ea ?= eb with
                   | Lt => Lt
                   | Gt => Gt
                   | Eq => Pos.compare_cont Eq ma mb
                   end).
    { destruct (Z.compare_spec ea eb) as [Heq | Hl | Hg].
      - subst eb. rewrite compare_cont_Eq.
        assert (Hp : 0 < 2 ^ (ea + 1074)) by (apply Z.pow_pos_nonneg; lia).
        destruct (Z.compare_spec (Zpos ma) (Zpos mb)) as [E | L | G].
        + rewrite E. apply Z.compare_refl.
        + apply Z.compare_lt_iff. apply Z.mul_lt_mono_pos_r; assumption.
        + apply Z.compare_gt_iff. apply Z.mul_lt_mono_pos_r; assumption.
      - apply Z.compare_lt_iff. apply Hlt; try lia.
        rewrite (Hnb ltac:(lia)) in Hmb_lo. exact Hmb_lo.
      - apply Z.compare_gt_iff. apply Hlt; try lia.
        rewrite (Hna ltac:(lia)) in Hma_lo. exact Hma_lo. }
    cbn [SFcompare rank]. destruct sa, sb; cbn [cond_Zopp]; f_equal.
    + rewrite cond_Zopp_compare, Hcmp.
      destruct (ea ?= eb); try reflexivity.
    + symmetry. apply Z.compare_lt_iff. lia.
    + symmetry. apply Z.compare_gt_iff. lia.
    + rewrite Hcmp. reflexivity.
Qed.


(** ** Rounding never changes the sign *)

Lemma shr_1_m : forall mrs, 0 <= shr_m mrs -> shr_m (shr_1 mrs) = shr_m mrs / 2.
Proof.
  intros [m r s] H. cbn [shr_m] in H. unfold shr_1.
  destruct m as [|[p|p|]|p]; cbn [shr_m].
  - reflexivity.
  - apply Z.div_unique with (r := 1); lia.
  - apply Z.div_unique with (r := 0); lia.
  - reflexivity.
  - lia.
Qed.

Lemma pow2_xO : forall p : positive, 2 ^ Zpos p~0 = 2 ^ Zpos p * 2 ^ Zpos p.
Proof. intros p. rewrite <- Z.pow_add_r by lia. f_equal. lia. Qed.

Lemma pow2_xI : forall p : positive, 2 ^ Zpos p~1 = 2 * (2 ^ Zpos p * 2 ^ Zpos p).
Proof.
  intros p. rewrite <- Z.pow_add_r by lia. rewrite <- Z.pow_succ_r by lia. f_equal. lia.
Qed.

Lemma iter_shr_1_m : forall p mrs,
  0 <= shr_m mrs -> shr_m (iter_pos shr_1 p mrs) = shr_m mrs / 2 ^ Zpos p.
Proof.
  induction p as [p IH | p IH |]; intros mrs H; cbn [iter_pos].
  - assert (Hp : 0 < 2 ^ Zpos p) by (apply Z.pow_pos_nonneg; lia).
    assert (H1 : 0 <= shr_m (shr_1 mrs))
      by (rewrite shr_1_m by exact H; apply Z.div_pos; lia).
    assert (H2 : 0 <= shr_m (iter_pos shr_1 p (shr_1 mrs)))
      by (rewrite IH by exact H1; apply Z.div_pos; [exact H1 | exact Hp]).
    rewrite IH by exact H2. rewrite IH by exact H1. rewrite shr_1_m by exact H.
    rewrite !Z.div_div by lia. rewrite pow2_xI. f_equal; lia.
  - assert (Hp : 0 < 2 ^ Zpos p) by (apply Z.pow_pos_nonneg; lia).
    assert (H2 : 0 <= shr_m (iter_pos shr_1 p mrs))
      by (rewrite IH by exact H; apply Z.div_pos; [exact H | exact Hp]).
    rewrite IH by exact H2. rewrite IH by exact H.
    rewrite Z.div_div by lia. rewrite pow2_xO. reflexivity.
  - rewrite shr_1_m by exact H. reflexivity.
Qed.

Lemma shr_record_of_loc_m : forall m l, shr_m (shr_record_of_loc m l) = m.
Proof. intros m [|[]]; reflexivity. Qed.

(** Shifting a positive mantissa to its place keeps it positive, as long
    as the exponent is not below the smallest one. *)
Lemma shr_fexp_pos : forall m e l,
  0 < m -> -1074 <= e ->
  0 < shr_m (fst (shr_fexp prec emax m e l)) /\ -1074 <= snd (shr_fexp prec emax m e l).
Proof.
  intros m e l Hm He. unfold shr_fexp, shr.
  destruct (fexp prec emax (Zdigits2 m + e) - e) as [|p|p] eqn:Hn; cbn [fst snd];
    rewrite ?shr_record_of_loc_m; try (split; lia).
  rewrite iter_shr_1_m by (rewrite shr_record_of_loc_m; lia).
  rewrite shr_record_of_loc_m. split; [|lia].
  destruct m as [|pm|pm]; try lia. cbn [Zdigits2] in Hn.
  unfold fexp, emin, prec, emax in Hn.
  pose proof (digits2_pos_bounds pm) as [Hlo _].
  apply Z.div_str_pos. split; [apply Z.pow_pos_nonneg; lia|].
  eapply Z.le_trans; [|exact Hlo]. apply Z.pow_le_mono_r; lia.
Qed.

Lemma round_nearest_even_pos : forall m l, 0 < m -> 0 < round_nearest_even m l.
Proof.
  intros m [|[]] H; cbn [round_nearest_even]; try lia.
  destruct (Z.even m); lia.
Qed.

Lemma binary_round_aux_nonzero : forall s m e l,
  0 < m -> -1074 <= e -> signed_nonzero s (binary_round_aux prec emax s m e l).
Proof.
  intros s m e l Hm He. unfold binary_round_aux.
  destruct (shr_fexp_pos m e l Hm He) as [H1 H2].
  destruct (shr_fexp prec emax m e l) as [mrs' e']. cbn [fst snd] in H1, H2.
  pose proof (round_nearest_even_pos (shr_m mrs') (loc_of_shr_record mrs') H1) as H3.
  destruct (shr_fexp_pos _ e' loc_Exact H3 H2) as [H4 _].
  destruct (shr_fexp prec emax _ e' loc_Exact) as [mrs'' e'']. cbn [fst] in H4.
  destruct (shr_m mrs'') as [|p|p]; try lia.
  destruct (e'' <=? emax - prec); [left; eexists; eexists; reflexivity | right; reflexivity].
Qed.

Lemma shl_align_exp : forall m e e',
  -1074 <= e -> -1074 <= e' -> -1074 <= snd (shl_align m e e').
Proof.
  intros m e e' H H'. unfold shl_align. destruct (e' - e); cbn [snd]; lia.
Qed.

Lemma binary_round_nonzero : forall s m e,
  -1074 <= e -> signed_nonzero s (binary_round prec emax s m e).
Proof.
  intros s m e He. unfold binary_round.
  pose proof (shl_align_exp m e (fexp prec emax (Zpos (digits2_pos m) + e)) He) as H.
  destruct (shl_align m e (fexp prec emax (Zpos (digits2_pos m) + e))) as [mz ez].
  cbn [snd] in H. apply binary_round_aux_nonzero; [lia|].
  apply H. unfold fexp, emin, prec, emax. lia.
Qed.

Lemma binary_round_aux_opp : forall s m e l,
  binary_round_aux prec emax (negb s) m e l = SFopp (binary_round_aux prec emax s m e l).
Proof.
  intros s m e l. unfold binary_round_aux.
  destruct (shr_fexp prec emax m e l) as [mrs' e'].
  destruct (shr_fexp prec emax _ e' loc_Exact) as [mrs'' e''].
  destruct (shr_m mrs''); [reflexivity | | reflexivity].
  destruct (e'' <=? emax - prec); reflexivity.
Qed.

Lemma binary_round_opp : forall s m e,
  binary_round prec emax (negb s) m e = SFopp (binary_round prec emax s m e).
Proof.
  intros s m e. unfold binary_round.
  destruct (shl_align m e _) as [mz ez]. apply binary_round_aux_opp.
Qed.

Lemma binary_normalize_opp : forall z e,
  z <> 0 ->
  binary_normalize prec emax (- z) e false = SFopp (binary_normalize prec emax z e false).
Proof.
  intros [|p|p] e Hz; [congruence | |]; cbn [Z.opp binary_normalize].
  - exact (binary_round_opp false p e).
  - pose proof (binary_round_opp false p e) as H. cbn [negb] in H. rewrite H.
    destruct (binary_round prec emax false p e);
      cbn [SFopp]; rewrite ?negb_involutive; reflexivity.
Qed.

(** ** Aligned mantissas *)

Lemma iter_xO : forall (d m : positive), Zpos (Pos.iter xO m d) = Zpos m * 2 ^ Zpos d.
Proof.
  intros d m. induction d as [|d IH] using Pos.peano_ind.
  - cbn. lia.
  - rewrite Pos.iter_succ, Pos2Z.inj_xO, IH, Pos2Z.inj_succ, Z.pow_succ_r by lia. lia.
Qed.

Lemma shl_align_value : forall m e e',
  e' <= e -> Zpos (fst (shl_align m e e')) = Zpos m * 2 ^ (e - e').
Proof.
  intros m e e' H. unfold shl_align.
  destruct (e' - e) as [|d|d] eqn:Hd; cbn [fst].
  - replace (e - e') with 0 by lia. lia.
  - lia.
  - rewrite iter_xO. f_equal. f_equal. lia.
Qed.

(** The aligned difference of two finite doubles has the sign of the
    difference of their ranks. *)
Lemma aligned_difference : forall sa ma ea sb mb eb,
  -1074 <= ea -> -1074 <= eb ->
  let ez := Z.min ea eb in
  (cond_Zopp sa (Zpos (fst (shl_align ma ea ez))) -
   cond_Zopp sb (Zpos (fst (shl_align mb eb ez)))) * 2 ^ (ez + 1074) =
  rank (S754_finite sa ma ea) - rank (S754_finite sb mb eb).
Proof.
  intros sa ma ea sb mb eb Ha Hb ez.
  rewrite !shl_align_value by (subst ez; lia). cbn [rank].
  assert (Ea : Zpos ma * 2 ^ (ea - ez) * 2 ^ (ez + 1074) = Zpos ma * 2 ^ (ea + 1074)).
  { rewrite <- Z.mul_assoc, <- Z.pow_add_r by (subst ez; lia). f_equal. f_equal. lia. }
  assert (Eb : Zpos mb * 2 ^ (eb - ez) * 2 ^ (ez + 1074) = Zpos mb * 2 ^ (eb + 1074)).
  { rewrite <- Z.mul_assoc, <- Z.pow_add_r by (subst ez; lia). f_equal. f_equal. lia. }
  destruct sa, sb; cbn [cond_Zopp]; lia.
Qed.


(** ** Subtraction, multiplication and division on specifications *)

Lemma SFleb_rank : forall a b,
  valid_binary a = true -> valid_binary b = true ->
  not_nan a = true -> not_nan b = true ->
  SFleb a b = (rank a <=? rank b).
Proof.
  intros a b Va Vb Na Nb. unfold SFleb. rewrite (SFcompare_rank a b Va Vb Na Nb).
  unfold Z.leb. destruct (rank a ?= rank b); reflexivity.
Qed.

Lemma SFltb_rank : forall a b,
  valid_binary a = true -> valid_binary b = true ->
  not_nan a = true -> not_nan b = true ->
  SFltb a b = (rank a <? rank b).
Proof.
  intros a b Va Vb Na Nb. unfold SFltb. rewrite (SFcompare_rank a b Va Vb Na Nb).
  unfold Z.ltb. destruct (rank a ?= rank b); reflexivity.
Qed.

Lemma SFeqb_rank : forall a b,
  valid_binary a = true -> valid_binary b = true ->
  not_nan a = true -> not_nan b = true ->
  SFeqb a b = (rank a =? rank b).
Proof.
  intros a b Va Vb Na Nb. unfold SFeqb. rewrite (SFcompare_rank a b Va Vb Na Nb).
  unfold Z.eqb. destruct (rank a) as [|p|p], (rank b) as [|q|q]; cbn; try reflexivity.
  - destruct (Pos.compare_spec p q) as [->| |]; [rewrite Pos.eqb_refl; reflexivity | |];
      symmetry; apply Pos.eqb_neq; lia.
  - rewrite <- Pos.compare_antisym.
    destruct (Pos.compare_spec q p) as [->| |]; [rewrite Pos.eqb_refl; reflexivity | |];
      symmetry; apply Pos.eqb_neq; lia.
Qed.

(** The sign of a difference, as the comparator of a sort reads it (a NaN
    difference counts as 0), is the order of the operands. *)
Lemma SFsub_sign : forall a b,
  valid_binary a = true -> valid_binary b = true ->
  not_nan a = true -> not_nan b = true ->
  negb (not_nan (SF64sub a b)) || SFleb (SF64sub a b) (S754_zero false) = SFleb a b.
Proof.
  intros a b Va Vb Na Nb.
  destruct a as [sa | sa | | sa ma ea]; try discriminate;
  destruct b as [sb | sb | | sb mb eb]; try discriminate;
    try (destruct sa; destruct sb; reflexivity);
    try (destruct sa; reflexivity); try (destruct sb; reflexivity).
  rewrite (SFleb_rank _ _ Va Vb Na Nb).
  cbn [valid_binary] in Va, Vb.
  destruct (bounded_inv ma ea Va) as (Hea & _).
  destruct (bounded_inv mb eb Vb) as (Heb & _).
  pose proof (aligned_difference sa ma ea sb mb eb ltac:(lia) ltac:(lia)) as Hd.
  cbv zeta in Hd. unfold SF64sub, SFsub.
  assert (Hp : 0 < 2 ^ (Z.min ea eb + 1074)) by (apply Z.pow_pos_nonneg; lia).
  remember (rank (S754_finite sa ma ea)) as ra eqn:Hra.
  remember (rank (S754_finite sb mb eb)) as rb eqn:Hrb.
  destruct (cond_Zopp sa (Zpos (fst (shl_align ma ea (Z.min ea eb)))) -
            cond_Zopp sb (Zpos (fst (shl_align mb eb (Z.min ea eb))))) as [|p|p];
    cbn [binary_normalize].
  - cbn. symmetry. apply Z.leb_le. lia.
  - replace (ra <=? rb) with false by (symmetry; apply Z.leb_gt; nia).
    destruct (binary_round_nonzero false p (Z.min ea eb) ltac:(lia)) as [(m & e & ->) | ->];
      reflexivity.
  - replace (ra <=? rb) with true by (symmetry; apply Z.leb_le; nia).
    destruct (binary_round_nonzero true p (Z.min ea eb) ltac:(lia)) as [(m & e & ->) | ->];
      reflexivity.
Qed.

(** Swapping the operands of a subtraction of finite doubles negates the
    result, unless both differences are +0. *)
Lemma SFsub_swap : forall a b,
  finite a = true -> finite b = true ->
  SF64sub b a = SFopp (SF64sub a b) \/
  (SF64sub a b = S754_zero false /\ SF64sub b a = S754_zero false).
Proof.
  intros a b Fa Fb.
  destruct a as [sa | sa | | sa ma ea]; try discriminate;
  destruct b as [sb | sb | | sb mb eb]; try discriminate.
  - destruct sa, sb; cbn; auto.
  - left. cbn. rewrite negb_involutive. reflexivity.
  - left. reflexivity.
  - unfold SF64sub, SFsub. rewrite (Z.min_comm eb ea).
    set (x := cond_Zopp sa (Zpos (fst (shl_align ma ea (Z.min ea eb))))).
    set (y := cond_Zopp sb (Zpos (fst (shl_align mb eb (Z.min ea eb))))).
    destruct (Z.eq_dec (x - y) 0) as [E | N].
    + right. replace (y - x) with 0 by lia. rewrite E. split; reflexivity.
    + left. replace (y - x) with (- (x - y)) by lia.
      apply binary_normalize_opp. exact N.
Qed.

Lemma SFsub_diag : forall a, finite a = true -> SF64sub a a = S754_zero false.
Proof.
  intros [s | s | | s m e] F; try discriminate.
  - destruct s; reflexivity.
  - unfold SF64sub, SFsub. rewrite Z.sub_diag. reflexivity.
Qed.

Lemma SFmul_opp_l : forall a b, SF64mul (SFopp a) b = SFopp (SF64mul a b).
Proof.
  intros [sa | sa | | sa ma ea] [sb | sb | | sb mb eb]; cbn [SFopp SF64mul SFmul];
    unfold SF64mul, SFmul; cbn [SFopp]; try reflexivity;
    try (destruct sa, sb; reflexivity).
  replace (xorb (negb sa) sb) with (negb (xorb sa sb)) by (destruct sa, sb; reflexivity).
  apply binary_round_aux_opp.
Qed.

Lemma SFdiv_opp_l : forall a b, SF64div (SFopp a) b = SFopp (SF64div a b).
Proof.
  intros [sa | sa | | sa ma ea] [sb | sb | | sb mb eb]; cbn [SFopp SF64div SFdiv];
    unfold SF64div, SFdiv; cbn [SFopp]; try reflexivity;
    try (destruct sa, sb; reflexivity).
  replace (xorb (negb sa) sb) with (negb (xorb sa sb)) by (destruct sa, sb; reflexivity).
  destruct (SFdiv_core_binary prec emax (Zpos ma) ea (Zpos mb) eb) as [[mz ez] lz].
  apply binary_round_aux_opp.
Qed.

Lemma SFmul_comm : forall a b, SF64mul a b = SF64mul b a.
Proof.
  intros [sa | sa | | sa ma ea] [sb | sb | | sb mb eb]; unfold SF64mul, SFmul;
    try reflexivity; try (destruct sa, sb; reflexivity).
  rewrite (xorb_comm sb sa), (Pos.mul_comm mb ma), (Z.add_comm eb ea). reflexivity.
Qed.


(** ** Results that stay finite *)

Lemma Zdigits2_le : forall m k, 0 <= m < 2 ^ k -> 0 <= k -> Zdigits2 m <= k.
Proof.
  intros [|p|p] k H Hk; cbn [Zdigits2]; try lia.
  apply digits2_pos_le. lia.
Qed.

Lemma shr_fexp_bounds : forall m e l,
  0 <= m ->
  let e' := snd (shr_fexp prec emax m e l) in
  0 <= shr_m (fst (shr_fexp prec emax m e l)) /\
  shr_m (fst (shr_fexp prec emax m e l)) * 2 ^ (e' - e) <= m /\
  e <= e' <= Z.max e (fexp prec emax (Zdigits2 m + e)).
Proof.
  intros m e l Hm. unfold shr_fexp, shr.
  destruct (fexp prec emax (Zdigits2 m + e) - e) as [|p|p] eqn:Hn; cbn [fst snd];
    rewrite ?shr_record_of_loc_m; rewrite ?Z.sub_diag; try (repeat split; lia).
  rewrite iter_shr_1_m by (rewrite shr_record_of_loc_m; lia).
  rewrite shr_record_of_loc_m.
  assert (Hp : 0 < 2 ^ Zpos p) by (apply Z.pow_pos_nonneg; lia).
  replace (e + Zpos p - e) with (Zpos p) by lia.
  split; [apply Z.div_pos; lia|]. split; [|lia].
  rewrite Z.mul_comm. apply Z.mul_div_le. exact Hp.
Qed.

Lemma round_nearest_even_bounds : forall m l,
  0 <= m -> 0 <= round_nearest_even m l <= m + 1.
Proof.
  intros m [|[]] H; cbn [round_nearest_even]; try lia.
  destruct (Z.even m); lia.
Qed.

(** A mantissa below 2^K shifted right by n fits in K - n bits (1 bit at
    least), with room for the rounding increment. *)
Lemma shifted_digits : forall m K n x,
  0 <= m < 2 ^ K -> 0 <= K -> 0 <= n -> 0 <= x -> x * 2 ^ n <= m ->
  Zdigits2 (x + 1) <= Z.max (K - n + 1) 1 /\ Zdigits2 x <= Z.max (K - n + 1) 1.
Proof.
  intros m K n x Hm HK Hn Hx Hxm.
  assert (Hb : x + 1 <= 2 ^ Z.max (K - n) 0).
  { destruct (Z.le_gt_cases n K) as [Hle | Hgt].
    - rewrite Z.max_l by lia.
      assert (Hlt : x * 2 ^ n < 2 ^ (K - n) * 2 ^ n)
        by (rewrite <- Z.pow_add_r by lia; replace (K - n + n) with K by lia; lia).
      assert (0 < 2 ^ n) by (apply Z.pow_pos_nonneg; lia).
      assert (x < 2 ^ (K - n)) by nia. lia.
    - rewrite Z.max_r by lia.
      assert (2 ^ K < 2 ^ n) by (apply Z.pow_lt_mono_r; lia).
      assert (0 < 2 ^ K) by (apply Z.pow_pos_nonneg; lia).
      assert (x = 0) by nia. subst x. cbn. lia. }
  assert (Hc : 2 ^ Z.max (K - n) 0 < 2 ^ Z.max (K - n + 1) 1)
    by (apply Z.pow_lt_mono_r; lia).
  split; apply Zdigits2_le; lia.
Qed.

Lemma fexp_le : forall z k, z <= k -> fexp prec emax z <= Z.max (k - 53) (-1074).
Proof. intros z k H. unfold fexp, emin, prec, emax. lia. Qed.

(** Rounding a value below 2^1023 gives a finite double. *)
Lemma binary_round_aux_finite : forall s m e l K,
  0 <= m < 2 ^ K -> 0 <= K -> K + e <= 1023 -> e <= 971 ->
  finite (binary_round_aux prec emax s m e l) = true.
Proof.
  intros s m e l K Hm HK HKe He. unfold binary_round_aux.
  pose proof (shr_fexp_bounds m e l ltac:(lia)) as H. cbv zeta in H.
  destruct H as (H1 & H2 & H3).
  pose proof (fexp_le (Zdigits2 m + e) (K + e)
                ltac:(pose proof (Zdigits2_le m K Hm HK); lia)) as H4.
  destruct (shr_fexp prec emax m e l) as [mrs' e']. cbn [fst snd] in H1, H2, H3.
  pose proof (round_nearest_even_bounds (shr_m mrs') (loc_of_shr_record mrs') H1) as H5.
  destruct (shifted_digits m K (e' - e) (shr_m mrs') Hm HK ltac:(lia) H1 H2) as [H6 H6'].
  set (m1 := round_nearest_even (shr_m mrs') (loc_of_shr_record mrs')) in *.
  assert (Hd1 : Zdigits2 m1 <= Z.max (K - (e' - e) + 1) 1).
  { destruct (Z.eq_dec m1 (shr_m mrs' + 1)) as [-> | Hne]; [exact H6|].
    assert (Hle : m1 <= shr_m mrs') by lia.
    destruct m1 as [|p1|p1]; cbn [Zdigits2]; try lia.
    destruct (shr_m mrs') as [|q|q] eqn:Hq; try lia. cbn [Zdigits2] in H6'.
    eapply Z.le_trans; [|exact H6'].
    apply digits2_pos_le. pose proof (digits2_pos_bounds q). lia. }
  pose proof (shr_fexp_bounds m1 e' loc_Exact ltac:(lia)) as G. cbv zeta in G.
  destruct G as (G1 & _ & G3).
  pose proof (fexp_le (Zdigits2 m1 + e') (Z.max (K - (e' - e) + 1) 1 + e') ltac:(lia)) as G4.
  destruct (shr_fexp prec emax m1 e' loc_Exact) as [mrs'' e'']. cbn [fst snd] in G1, G3.
  destruct (shr_m mrs'') as [|p|p]; [reflexivity | | lia].
  replace (e'' <=? emax - prec) with true; [reflexivity|].
  symmetry. apply Z.leb_le. unfold emax, prec. lia.
Qed.

(** A finite double of magnitude at most 2^k has an exponent of at most
    k. *)
Lemma exponent_le : forall s m e k,
  -1074 <= e -> 0 <= k + 1074 ->
  rank (SFabs (S754_finite s m e)) <= 2 ^ (k + 1074) -> e <= k.
Proof.
  intros s m e k He Hk H. cbn [SFabs rank cond_Zopp] in H.
  destruct (Z.le_gt_cases e k) as [|Hgt]; [assumption|]. exfalso.
  assert (2 ^ (k + 1074) < 2 ^ (e + 1074)) by (apply Z.pow_lt_mono_r; lia).
  assert (0 < 2 ^ (e + 1074)) by (apply Z.pow_pos_nonneg; lia). nia.
Qed.

Lemma mantissa_lt : forall m e, bounded prec emax m e = true -> Zpos m < 2 ^ 53.
Proof.
  intros m e H. destruct (bounded_inv m e H) as (_ & Hd & _).
  pose proof (digits2_pos_bounds m) as [_ Hm].
  eapply Z.lt_le_trans; [exact Hm | apply Z.pow_le_mono_r; lia].
Qed.

(** A product of two finite doubles of magnitude at most 2^ka and 2^kb,
    ka + kb below 800, is finite. *)
Lemma SFmul_finite : forall a b ka kb,
  valid_binary a = true -> valid_binary b = true ->
  finite a = true -> finite b = true ->
  0 <= ka + 1074 -> 0 <= kb + 1074 -> ka + kb <= 800 ->
  rank (SFabs a) <= 2 ^ (ka + 1074) -> rank (SFabs b) <= 2 ^ (kb + 1074) ->
  finite (SF64mul a b) = true.
Proof.
  intros a b ka kb Va Vb Fa Fb Hka Hkb Hk Ha Hb.
  destruct a as [sa | sa | | sa ma ea]; try discriminate;
  destruct b as [sb | sb | | sb mb eb]; try discriminate; try reflexivity.
  cbn [valid_binary] in Va, Vb.
  destruct (bounded_inv ma ea Va) as (Hea & _).
  destruct (bounded_inv mb eb Vb) as (Heb & _).
  pose proof (exponent_le sa ma ea ka ltac:(lia) Hka Ha).
  pose proof (exponent_le sb mb eb kb ltac:(lia) Hkb Hb).
  pose proof (mantissa_lt ma ea Va). pose proof (mantissa_lt mb eb Vb).
  unfold SF64mul, SFmul. apply (binary_round_aux_finite _ _ _ _ 106); try lia.
  rewrite Pos2Z.inj_mul. split; [lia|].
  replace (2 ^ 106) with (2 ^ 53 * 2 ^ 53) by reflexivity.
  apply Z.mul_lt_mono_nonneg; lia.
Qed.

(** A quotient of a finite double by a finite double of magnitude 2 at
    least is finite. *)
Lemma SFdiv_finite : forall a sb mb eb,
  valid_binary a = true -> bounded prec emax mb eb = true ->
  finite a = true -> -51 <= eb ->
  finite (SF64div a (S754_finite sb mb eb)) = true.
Proof.
  intros a sb mb eb Va Vb Fa Hk.
  destruct a as [sa | sa | | sa ma ea]; try discriminate; try reflexivity.
  cbn [valid_binary] in Va.
  destruct (bounded_inv ma ea Va) as (Hea & Hda & _).
  destruct (bounded_inv mb eb Vb) as (Heb & Hdb & Hnb).
  pose proof (Hnb ltac:(lia)) as Hd2.
  pose proof (digits2_pos_bounds ma) as [_ Hma].
  pose proof (digits2_pos_bounds mb) as [Hmb _]. rewrite Hd2 in Hmb.
  unfold SF64div, SFdiv, SFdiv_core_binary. cbn [Zdigits2]. rewrite Hd2.
  set (d1 := Zpos (digits2_pos ma)) in *.
  set (e' := Z.min (fexp prec emax (d1 + ea - (53 + eb))) (ea - eb)).
  assert (He' : e' <= ea - eb /\ e' <= 969).
  { subst e'. unfold fexp, emin, prec, emax. lia. }
  set (m' := match ea - eb - e' with
             | 0 => Zpos ma
             | Zpos _ => Z.shiftl (Zpos ma) (ea - eb - e')
             | Zneg _ => 0
             end).
  assert (Hm' : m' = Zpos ma * 2 ^ (ea - eb - e')).
  { subst m'. destruct (ea - eb - e') as [|p|p] eqn:Hs; try lia.
    rewrite Z.shiftl_mul_pow2 by lia. reflexivity. }
  pose proof (Z_div_mod m' (Zpos mb) ltac:(lia)) as Hdm.
  destruct (Z.div_eucl m' (Zpos mb)) as [q r].
  assert (Hp : 0 < 2 ^ (ea - eb - e')) by (apply Z.pow_pos_nonneg; lia).
  assert (Hq : 0 <= q) by nia.
  assert (Hm'lt : m' < 2 ^ (d1 + (ea - eb - e'))).
  { rewrite Hm', Z.pow_add_r by lia. apply Z.mul_lt_mono_pos_r; assumption. }
  set (K := Z.max 0 (d1 + (ea - eb - e') - 52)).
  assert (HqK : q < 2 ^ K).
  { destruct (Z.lt_ge_cases q (2 ^ K)) as [|Hge]; [assumption|]. exfalso.
    assert (H52 : 2 ^ (d1 + (ea - eb - e')) <= 2 ^ K * 2 ^ 52).
    { rewrite <- Z.pow_add_r by lia. apply Z.pow_le_mono_r; lia. }
    assert (0 < 2 ^ K) by (apply Z.pow_pos_nonneg; lia).
    change (53 - 1) with 52 in Hmb. nia. }
  apply (binary_round_aux_finite _ _ _ _ K); lia.
Qed.

End IEEEFacts.

Module DoubleFacts.
Import Floats Num IEEE IEEEFacts.
Local Open Scope float_scope.

Lemma is_nan_spec : forall x, is_nan x = negb (not_nan (Prim2SF x)).
Proof.
  intros x. unfold is_nan. rewrite eqb_spec.
  destruct (not_nan (Prim2SF x)) eqn:N.
  - rewrite (SFeqb_rank _ _ (Prim2SF_valid x) (Prim2SF_valid x) N N), Z.eqb_refl. reflexivity.
  - destruct (Prim2SF x); try discriminate. reflexivity.
Qed.

Lemma not_nan_iff : forall x, is_nan x = false <-> not_nan (Prim2SF x) = true.
Proof. intros x. rewrite is_nan_spec. destruct (not_nan (Prim2SF x)); cbn; intuition congruence. Qed.

Lemma is_finite_spec : forall x, is_finite x = finite (Prim2SF x).
Proof.
  intros x. unfold is_finite. rewrite ltb_spec, abs_spec.
  change (Prim2SF infinity) with (S754_infinity false).
  destruct (Prim2SF x) as [s | s | | s m e]; reflexivity.
Qed.

Lemma finite_not_nan : forall x, is_finite x = true -> is_nan x = false.
Proof.
  intros x. rewrite is_finite_spec, is_nan_spec. destruct (Prim2SF x); cbn; congruence.
Qed.

Lemma leb_rank : forall x y,
  is_nan x = false -> is_nan y = false ->
  PrimFloat.leb x y = (rank (Prim2SF x) <=? rank (Prim2SF y))%Z.
Proof.
  intros x y Nx Ny. rewrite leb_spec.
  apply SFleb_rank; auto using Prim2SF_valid; apply not_nan_iff; assumption.
Qed.

Lemma leb_not_nan : forall x y, PrimFloat.leb x y = true -> is_nan x = false /\ is_nan y = false.
Proof.
  intros x y. rewrite leb_spec, !is_nan_spec. unfold SFleb.
  destruct (Prim2SF x), (Prim2SF y); cbn; intros H; try discriminate; split; reflexivity.
Qed.

Lemma leb_trans : forall x y z,
  PrimFloat.leb x y = true -> PrimFloat.leb y z = true -> PrimFloat.leb x z = true.
Proof.
  intros x y z Hxy Hyz.
  destruct (leb_not_nan _ _ Hxy) as [Nx Ny]. destruct (leb_not_nan _ _ Hyz) as [_ Nz].
  rewrite leb_rank in * by assumption. apply Z.leb_le. apply Z.leb_le in Hxy, Hyz. lia.
Qed.

Lemma leb_total : forall x y,
  is_nan x = false -> is_nan y = false ->
  PrimFloat.leb x y = false -> PrimFloat.leb y x = true.
Proof.
  intros x y Nx Ny H. rewrite leb_rank in * by assumption.
  apply Z.leb_le. apply Z.leb_gt in H. lia.
Qed.

Lemma ltb_rank : forall x y,
  is_nan x = false -> is_nan y = false ->
  PrimFloat.ltb x y = (rank (Prim2SF x) <? rank (Prim2SF y))%Z.
Proof.
  intros x y Nx Ny. rewrite ltb_spec.
  apply SFltb_rank; auto using Prim2SF_valid; apply not_nan_iff; assumption.
Qed.

Lemma leb_refl : forall x, is_nan x = false -> PrimFloat.leb x x = true.
Proof. intros x N. rewrite leb_rank by assumption. apply Z.leb_refl. Qed.

(** The comparator of a sort by a numeric key, read as the sort reads it,
    is the order of the keys. *)
Lemma sub_sign : forall x y,
  is_nan x = false -> is_nan y = false ->
  is_nan (x - y) || PrimFloat.leb (x - y) 0 = PrimFloat.leb x y.
Proof.
  intros x y Nx Ny. rewrite is_nan_spec, !leb_spec, sub_spec.
  change (Prim2SF 0) with (S754_zero false).
  apply SFsub_sign; auto using Prim2SF_valid; apply not_nan_iff; assumption.
Qed.

Lemma bounds_finite : forall lo hi x,
  is_finite lo = true -> is_finite hi = true ->
  PrimFloat.leb lo x = true -> PrimFloat.leb x hi = true -> is_finite x = true.
Proof.
  intros lo hi x. rewrite !is_finite_spec, !leb_spec. unfold SFleb.
  destruct (Prim2SF lo) as [? | ? | | ? ? ?]; try discriminate;
  destruct (Prim2SF hi) as [? | ? | | ? ? ?]; try discriminate;
  destruct (Prim2SF x) as [? | [] | | ? ? ?]; cbn; congruence.
Qed.

Lemma sub_diag : forall x, is_finite x = true -> x - x = 0.
Proof.
  intros x F. apply Prim2SF_inj. rewrite sub_spec.
  rewrite is_finite_spec in F. rewrite (SFsub_diag _ F). reflexivity.
Qed.

Lemma opp_involutive : forall x, - - x = x.
Proof.
  intros x. apply Prim2SF_inj. rewrite !opp_spec.
  destruct (Prim2SF x); cbn; rewrite ?negb_involutive; reflexivity.
Qed.

Lemma sub_swap : forall x y,
  is_finite x = true -> is_finite y = true ->
  y - x = - (x - y) \/ (x - y = 0 /\ y - x = 0).
Proof.
  intros x y Fx Fy. rewrite is_finite_spec in Fx, Fy.
  destruct (SFsub_swap _ _ Fx Fy) as [H | [H1 H2]].
  - left. apply Prim2SF_inj. rewrite opp_spec, !sub_spec. exact H.
  - right. split; apply Prim2SF_inj; rewrite sub_spec; assumption.
Qed.

Lemma mul_opp_l : forall x y, (- x) * y = - (x * y).
Proof.
  intros x y. apply Prim2SF_inj. rewrite opp_spec, !mul_spec, opp_spec. apply SFmul_opp_l.
Qed.

Lemma div_opp_l : forall x y, (- x) / y = - (x / y).
Proof.
  intros x y. apply Prim2SF_inj. rewrite opp_spec, !div_spec, opp_spec. apply SFdiv_opp_l.
Qed.

Lemma mul_comm : forall x y, x * y = y * x.
Proof.
  intros x y. apply Prim2SF_inj. rewrite !mul_spec. apply SFmul_comm.
Qed.

Lemma mul_opp_opp : forall x y, (- x) * (- y) = x * y.
Proof.
  intros x y. rewrite mul_opp_l, (mul_comm x (- y)), mul_opp_l, opp_involutive.
  apply mul_comm.
Qed.

(** A number of magnitude at most 2^k. *)
Lemma abs_leb_rank : forall x (k : Z) (c : float),
  Prim2SF c = S754_finite false 4503599627370496 (k - 52) ->
  (0 <= k + 1022)%Z ->
  PrimFloat.leb (abs x) c = true ->
  is_finite x = true /\ (rank (SFabs (Prim2SF x)) <= 2 ^ (k + 1074))%Z.
Proof.
  intros x k c Hc Hk H.
  destruct (leb_not_nan _ _ H) as [Na Nc].
  rewrite leb_rank in H by assumption. apply Z.leb_le in H.
  rewrite abs_spec, Hc in H. cbn [rank cond_Zopp] in H.
  replace (4503599627370496 * 2 ^ (k - 52 + 1074))%Z with (2 ^ (k + 1074))%Z in H.
  2:{ change 4503599627370496%Z with (2 ^ 52)%Z. rewrite <- Z.pow_add_r by lia.
      f_equal. lia. }
  split; [|exact H].
  rewrite is_finite_spec. rewrite is_nan_spec, abs_spec in Na.
  destruct (Prim2SF x) as [s | s | | s m e]; try reflexivity; try discriminate.
  exfalso. cbn [SFabs rank cond_Zopp] in H.
  pose proof (Prim2SF_valid c) as V. rewrite Hc in V. cbn [SpecFloat.valid_binary] in V.
  destruct (bounded_inv _ _ V) as (Hbound & _).
  assert (2 ^ (k + 1074) < 2 ^ 2100)%Z by (apply Z.pow_lt_mono_r; lia). lia.
Qed.

Lemma mul_finite : forall x y (kx ky : Z) (cx cy : float),
  Prim2SF cx = S754_finite false 4503599627370496 (kx - 52) ->
  Prim2SF cy = S754_finite false 4503599627370496 (ky - 52) ->
  (0 <= kx + 1022)%Z -> (0 <= ky + 1022)%Z -> (kx + ky <= 800)%Z ->
  PrimFloat.leb (abs x) cx = true -> PrimFloat.leb (abs y) cy = true ->
  is_finite (x * y) = true.
Proof.
  intros x y kx ky cx cy Hcx Hcy Hkx Hky Hk Hx Hy.
  destruct (abs_leb_rank x kx cx Hcx Hkx Hx) as [Fx Rx].
  destruct (abs_leb_rank y ky cy Hcy Hky Hy) as [Fy Ry].
  rewrite is_finite_spec in *. rewrite mul_spec.
  apply (SFmul_finite _ _ kx ky); auto using Prim2SF_valid; lia.
Qed.

Lemma div_finite : forall x c sb mb eb,
  Prim2SF c = S754_finite sb mb eb -> (-51 <= eb)%Z ->
  is_finite x = true -> is_finite (x / c) = true.
Proof.
  intros x c sb mb eb Hc He Fx. rewrite is_finite_spec in *. rewrite div_spec, Hc.
  apply SFdiv_finite; auto using Prim2SF_valid.
  pose proof (Prim2SF_valid c) as V. rewrite Hc in V. exact V.
Qed.

(** A finite number times zero is a zero, and adding a zero to +0 gives
    +0. *)
Lemma zero_plus_finite_times_zero : forall x,
  is_finite x = true -> 0 + x * 0 = 0.
Proof.
  intros x F. rewrite is_finite_spec in F. apply Prim2SF_inj.
  rewrite add_spec, mul_spec. change (Prim2SF 0) with (S754_zero false).
  destruct (Prim2SF x) as [[] | ? | | [] ? ?]; try discriminate; reflexivity.
Qed.


Lemma rank_opp : forall a, rank (SFopp a) = (- rank a)%Z.
Proof.
  intros [s | s | | s m e]; cbn [SFopp rank]; try reflexivity;
    destruct s; cbn [negb cond_Zopp]; lia.
Qed.

Lemma rank_abs : forall a, rank (SFabs a) = Z.abs (rank a).
Proof.
  intros [s | s | | s m e]; cbn [SFabs rank]; try reflexivity.
  - assert (0 < 2 ^ 2100)%Z by (apply Z.pow_pos_nonneg; lia).
    destruct s; cbn [cond_Zopp]; lia.
  - assert (0 <= Zpos m * 2 ^ (e + 1074))%Z
      by (apply Z.mul_nonneg_nonneg; [lia | apply Z.pow_nonneg; lia]).
    destruct s; cbn [cond_Zopp]; lia.
Qed.

Lemma opp_not_nan : forall x, is_nan (- x) = is_nan x.
Proof. intros x. rewrite !is_nan_spec, opp_spec. destruct (Prim2SF x); reflexivity. Qed.

Lemma abs_not_nan : forall x, is_nan (abs x) = is_nan x.
Proof. intros x. rewrite !is_nan_spec, abs_spec. destruct (Prim2SF x); reflexivity. Qed.

(** A number between [lo] and [hi], both of magnitude at most [c], has
    magnitude at most [c]. *)
Lemma abs_leb_of_bounds : forall x lo hi c,
  PrimFloat.leb lo x = true -> PrimFloat.leb x hi = true ->
  PrimFloat.leb (- c) lo = true -> PrimFloat.leb hi c = true ->
  PrimFloat.leb (abs x) c = true.
Proof.
  intros x lo hi c H1 H2 H3 H4.
  destruct (leb_not_nan _ _ H1) as [Nlo Nx]. destruct (leb_not_nan _ _ H4) as [Nhi Nc].
  destruct (leb_not_nan _ _ H3) as [Nmc _].
  rewrite leb_rank in * by (rewrite ?abs_not_nan; assumption).
  rewrite abs_spec, rank_abs. rewrite opp_spec, rank_opp in H3.
  apply Z.leb_le. apply Z.leb_le in H1, H2, H3, H4. lia.
Qed.

End DoubleFacts.

(* ================================================================== *)
(** * Properties of the great-circle distance *)
(* ================================================================== *)

Module GeoFacts.

Import Floats Num Geo IEEE IEEEFacts DoubleFacts GeoCases.
Local Open Scope float_scope.

Lemma valid_finite : forall lat lon,
  valid_coordinate lat lon -> is_finite lat = true /\ is_finite lon = true.
Proof.
  intros lat lon (H1 & H2 & H3 & H4). split.
  - apply (bounds_finite (-90) 90); [reflexivity | reflexivity | exact H1 | exact H2].
  - apply (bounds_finite (-180) 180); [reflexivity | reflexivity | exact H3 | exact H4].
Qed.

Lemma toRad_0 : toRad 0 / 2 = 0.
Proof. reflexivity. Qed.

(** The angle of a latitude is finite. *)
Lemma toRad_latitude_finite : forall lat,
  PrimFloat.leb (-90) lat = true -> PrimFloat.leb lat 90 = true ->
  is_finite (toRad lat) = true.
Proof.
  intros lat H1 H2. unfold toRad.
  apply (div_finite _ 180 false 6333186975989760 (-45)); [reflexivity | lia |].
  apply (mul_finite lat Math_PI 7 2 128 4); try reflexivity; try lia.
  apply (abs_leb_of_bounds lat (-90) 90); try assumption; reflexivity.
Qed.

Lemma toRad_opp : forall x, toRad (- x) = - toRad x.
Proof. intros x. unfold toRad. rewrite mul_opp_l, div_opp_l. reflexivity. Qed.

(** The haversine term of a difference does not change when the two
    points are swapped. *)
Lemma haversine_term_swap : forall lib x y,
  conforming lib -> is_finite x = true -> is_finite y = true ->
  Math_pow lib (Math_sin lib (toRad (y - x) / 2)) 2 =
  Math_pow lib (Math_sin lib (toRad (x - y) / 2)) 2.
Proof.
  intros lib x y C Fx Fy. destruct (sub_swap x y Fx Fy) as [H | [H1 H2]].
  - rewrite H, toRad_opp, div_opp_l, (sin_odd lib C), (square_even lib C). reflexivity.
  - rewrite H1, H2. reflexivity.
Qed.

Lemma haversine_a_swap : forall lib lat1 lon1 lat2 lon2,
  conforming lib ->
  valid_coordinate lat1 lon1 -> valid_coordinate lat2 lon2 ->
  haversine_a lib lat2 lon2 lat1 lon1 = haversine_a lib lat1 lon1 lat2 lon2.
Proof.
  intros lib lat1 lon1 lat2 lon2 C V1 V2.
  destruct (valid_finite _ _ V1) as [Fa1 Fo1]. destruct (valid_finite _ _ V2) as [Fa2 Fo2].
  unfold haversine_a.
  rewrite (haversine_term_swap lib lat2 lat1 C Fa2 Fa1).
  rewrite (haversine_term_swap lib lon2 lon1 C Fo2 Fo1).
  rewrite (mul_comm (Math_cos lib (toRad lat2)) (Math_cos lib (toRad lat1))).
  reflexivity.
Qed.

Lemma haversine_a_same : forall lib lat lon,
  conforming lib -> valid_coordinate lat lon -> haversine_a lib lat lon lat lon = 0.
Proof.
  intros lib lat lon C V. destruct (valid_finite _ _ V) as [Fa Fo].
  destruct V as (H1 & H2 & _).
  unfold haversine_a. rewrite !sub_diag by assumption. rewrite toRad_0.
  rewrite (sin_zero lib C), (square_zero lib C).
  apply zero_plus_finite_times_zero.
  pose proof (cos_range lib C (toRad lat) (toRad_latitude_finite lat H1 H2)) as Hc.
  apply (mul_finite _ _ 0 0 1 1); try reflexivity; try lia; exact Hc.
Qed.

Lemma calculateDistance_a : forall lib lat1 lon1 lat2 lon2,
  calculateDistance lib lat1 lon1 lat2 lon2 =
  earth_radius *
  (2 * Math_atan2 lib (sqrt (haversine_a lib lat1 lon1 lat2 lon2))
                      (sqrt (1 - haversine_a lib lat1 lon1 lat2 lon2))).
Proof. reflexivity. Qed.

(** ** The table of values is a conforming [Math] *)

Lemma eqb_zero : forall x,
  PrimFloat.eqb x 0 = match Prim2SF x with S754_zero _ => true | _ => false end.
Proof.
  intros x. rewrite eqb_spec. change (Prim2SF 0) with (S754_zero false).
  destruct (Prim2SF x) as [s | s | | s m e]; try reflexivity; destruct s; reflexivity.
Qed.

Lemma ltb_zero : forall x,
  PrimFloat.ltb x 0 =
  match Prim2SF x with
  | S754_finite s _ _ | S754_infinity s => s
  | _ => false
  end.
Proof.
  intros x. rewrite ltb_spec. change (Prim2SF 0) with (S754_zero false).
  destruct (Prim2SF x) as [s | s | | s m e]; try reflexivity; destruct s; reflexivity.
Qed.

Lemma opp_nan : forall x, Prim2SF x = S754_nan -> - x = x.
Proof. intros x H. apply Prim2SF_inj. rewrite opp_spec, H. reflexivity. Qed.

Lemma table_sin_odd : forall x, table_sin (- x) = - table_sin x.
Proof.
  intros x. unfold table_sin. rewrite !eqb_zero, !ltb_zero, opp_spec.
  destruct (Prim2SF x) as [s | s | | s m e] eqn:E; cbn [SFopp].
  - reflexivity.
  - destruct s; cbn [negb]; rewrite opp_involutive; reflexivity.
  - rewrite (opp_nan x E). unfold sin_values. rewrite !eqb_spec, E. cbn.
    symmetry. exact (opp_nan x E).
  - destruct s; cbn [negb]; rewrite opp_involutive; reflexivity.
Qed.

Lemma table_math_conforming : conforming table_math.
Proof.
  constructor; cbn [table_math Math_sin Math_cos Math_atan2 Math_pow].
  - reflexivity.
  - exact table_sin_odd.
  - intros x F. unfold table_cos.
    destruct (PrimFloat.eqb (abs x) 0.15666075365901102); [reflexivity|].
    rewrite F. reflexivity.
  - reflexivity.
  - intros x. unfold table_pow. change (PrimFloat.eqb 2 2) with true. cbv iota.
    apply mul_opp_opp.
  - reflexivity.
Qed.

(** ** The claim about [calculateDistance] *)

(** C9, as stated, fails: for the antipodal points (8.976, -72.4437) and
    (-8.976, 107.5563), both valid, the [a] of the formula comes out as
    1.0000000000000002, so [Math.sqrt(1 - a)] is NaN and so is the
    distance, in both directions; [d(a, b) == d(b, a)] is false. *)
Lemma antipodes_distance_is_nan :
  valid_coordinate 8.976 (-72.4437) /\
  valid_coordinate (-8.976) 107.5563 /\
  haversine_a table_math 8.976 (-72.4437) (-8.976) 107.5563 = 1.0000000000000002 /\
  is_nan (calculateDistance table_math 8.976 (-72.4437) (-8.976) 107.5563) = true /\
  is_nan (calculateDistance table_math (-8.976) 107.5563 8.976 (-72.4437)) = true /\
  PrimFloat.eqb (calculateDistance table_math 8.976 (-72.4437) (-8.976) 107.5563)
                (calculateDistance table_math (-8.976) 107.5563 8.976 (-72.4437)) = false.
Proof.
  repeat split; vm_compute; reflexivity.
Qed.

(** C9, amended: on a host whose [Math] conforms, for valid coordinates,
    the distance from a point to itself is 0, and the distance from [a]
    to [b] is the same double as the distance from [b] to [a]; the two
    compare equal ([==]) unless that double is NaN, which it can be. *)
Theorem calculateDistance_zero_and_same_both_ways :
  forall (lib : MathLib) (lat1 lon1 lat2 lon2 : float),
    conforming lib ->
    valid_coordinate lat1 lon1 -> valid_coordinate lat2 lon2 ->
    calculateDistance lib lat1 lon1 lat1 lon1 = 0 /\
    calculateDistance lib lat1 lon1 lat2 lon2 = calculateDistance lib lat2 lon2 lat1 lon1 /\
    PrimFloat.eqb (calculateDistance lib lat1 lon1 lat2 lon2)
                  (calculateDistance lib lat2 lon2 lat1 lon1) =
    negb (is_nan (calculateDistance lib lat1 lon1 lat2 lon2)).
Proof.
  intros lib lat1 lon1 lat2 lon2 C V1 V2.
  assert (Hsym : calculateDistance lib lat1 lon1 lat2 lon2 =
                 calculateDistance lib lat2 lon2 lat1 lon1).
  { rewrite !calculateDistance_a, (haversine_a_swap lib lat1 lon1 lat2 lon2 C V1 V2).
    reflexivity. }
  split; [|split].
  - rewrite calculateDistance_a, (haversine_a_same lib lat1 lon1 C V1).
    change (sqrt 0) with 0. change (sqrt (1 - 0)) with 1.
    rewrite (atan2_zero lib C). reflexivity.
  - exact Hsym.
  - rewrite <- Hsym. unfold is_nan. rewrite negb_involutive. reflexivity.
Qed.

Lemma calculateDistance_witness :
  calculateDistance table_math 8.976 (-72.4437) 8.976 (-72.4437) = 0 /\
  calculateDistance table_math 8.976 (-72.4437) (-8.976) 107.5563 =
  calculateDistance table_math (-8.976) 107.5563 8.976 (-72.4437) /\
  PrimFloat.eqb (calculateDistance table_math 8.976 (-72.4437) (-8.976) 107.5563)
                (calculateDistance table_math (-8.976) 107.5563 8.976 (-72.4437)) =
  negb (is_nan (calculateDistance table_math 8.976 (-72.4437) (-8.976) 107.5563)).
Proof.
  apply (calculateDistance_zero_and_same_both_ways table_math
           8.976 (-72.4437) (-8.976) 107.5563).
  - exact table_math_conforming.
  - repeat split; reflexivity.
  - repeat split; reflexivity.
Defined.

End GeoFacts.

(* ================================================================== *)
(** * Properties of the forecast aggregation *)
(* ================================================================== *)

Module WeatherFacts.

Import Floats.
Import Retry Calendar Num Weather.
Import IEEE IEEEFacts DoubleFacts WeatherCases.
Local Open Scope Z_scope.
Local Open Scope list_scope.

Lemma group_same_day : forall items k acc,
  Forall (fun i => sample_dayKey i = Ok k) items ->
  group items [(k, acc)] = Ok [(k, acc ++ items)].
Proof.
  induction items as [|i rest IH]; intros k acc Hall.
  - cbn. rewrite app_nil_r. reflexivity.
  - inversion Hall as [|? ? Hi Hrest]; subst.
    cbn [group]. rewrite Hi. cbn [bind push]. rewrite Z.eqb_refl.
    rewrite (IH k (acc ++ [i]) Hrest). rewrite <- app_assoc. reflexivity.
Qed.

Lemma group_one_bucket : forall i rest k,
  Forall (fun i => sample_dayKey i = Ok k) (i :: rest) ->
  group (i :: rest) [] = Ok [(k, i :: rest)].
Proof.
  intros i rest k Hall. inversion Hall as [|? ? Hi Hrest]; subst.
  cbn [group]. rewrite Hi. cbn [bind push].
  rewrite (group_same_day rest k [i] Hrest). reflexivity.
Qed.

Lemma mains_total : forall items,
  Forall (fun i => sample_main i <> None) items ->
  exists ms, mains items = Ok ms /\ map sample_main items = map Some ms.
Proof.
  induction items as [|i rest IH]; intros Hall.
  - exists []. split; reflexivity.
  - inversion Hall as [|? ? Hi Hrest]; subst.
    destruct (IH Hrest) as (ms & Hms & Hmap).
    destruct (sample_main i) as [m|] eqn:Hm; [|congruence].
    exists (m :: ms). cbn [mains map]. rewrite Hm, Hms, Hmap. split; reflexivity.
Qed.

(** The representative sample of a bucket that is not empty is one of its
    samples. *)
Lemma representative_in : forall i rest,
  exists x, (match find midday (i :: rest) with
             | Some y => Some y
             | None => hd_error (i :: rest)
             end) = Some x /\ In x (i :: rest).
Proof.
  intros i rest. destruct (find midday (i :: rest)) as [y|] eqn:Hf.
  - exists y. split; [reflexivity|]. apply (find_some _ _ Hf).
  - exists i. split; [reflexivity | left; reflexivity].
Qed.

Lemma fold_left_map : forall (A : Type) (f : A -> float) (l : list A) (a : float),
  fold_left (fun acc i => PrimFloat.add acc (f i)) l a =
  fold_left PrimFloat.add (map f l) a.
Proof.
  intros A f l. induction l as [|x l IH]; intros a; cbn; [reflexivity | apply IH].
Qed.

Lemma emit_bound : forall m days dayCount fs (n : nat),
  emit days dayCount m = Ok fs ->
  geb (of_nat n) days = true -> (dayCount <= n)%nat ->
  (dayCount + List.length fs <= n)%nat.
Proof.
  induction m as [|[k items] rest IH]; intros days dayCount fs n Hemit Hn Hle.
  - cbn in Hemit. inversion Hemit; subst. cbn. lia.
  - cbn [emit] in Hemit.
    destruct (geb (of_nat dayCount) days) eqn:Hstop.
    + inversion Hemit; subst. cbn. lia.
    + destruct (forecast_of k items) as [f|e]; cbn [bind] in Hemit; [|discriminate].
      destruct (emit days (S dayCount) rest) as [fs'|e] eqn:Hrest;
        cbn [bind] in Hemit; [|discriminate].
      inversion Hemit; subst.
      assert (dayCount <> n) by (intros ->; congruence).
      pose proof (IH days (S dayCount) fs' n Hrest Hn ltac:(lia)).
      cbn. lia.
Qed.

(** ** Day keys and the noon of a day *)

(** A sample with a valid time lies on one of the days a [Date] can
    hold. *)
Lemma sample_dayKey_range : forall i k,
  sample_dayKey i = Ok k -> -100000000 <= k <= 100000000.
Proof.
  intros i k. unfold sample_dayKey, sample_time, TimeClip.
  destruct (dt i) as [s|]; [|discriminate].
  destruct (Z.abs (s * 1000) <=? 8640000000000000) eqn:Hc; [|discriminate].
  intros H. inversion H; subst. apply Z.leb_le in Hc.
  unfold dayKey, Day, msPerDay.
  pose proof (Z.div_mod (s * 1000) 86400000 ltac:(lia)).
  pose proof (Z.mod_pos_bound (s * 1000) 86400000 ltac:(lia)). lia.
Qed.

(** Noon of every such day is a valid time, except on the last one. *)
Lemma noon_clip : forall k,
  -100000000 <= k <= 100000000 ->
  TimeClip (k * msPerDay + 43200000) =
  if k =? 100000000 then None else Some (k * msPerDay + 43200000).
Proof.
  intros k Hk. unfold TimeClip, msPerDay. destruct (Z.eqb_spec k 100000000) as [-> | Hne].
  - reflexivity.
  - replace (Z.abs (k * 86400000 + 43200000) <=? 8640000000000000) with true; [reflexivity|].
    symmetry. apply Z.leb_le. lia.
Qed.

(** ** [Math.min] and [Math.max] of a list *)

Local Open Scope float_scope.

Lemma fold_left_choice : forall (f : float -> float -> float),
  (forall a b, f a b = a \/ f a b = b) ->
  forall l a, In (fold_left f l a) (a :: l).
Proof.
  intros f Hf. induction l as [|x l IH]; intros a.
  - left. reflexivity.
  - cbn [fold_left]. destruct (IH (f a x)) as [H | H].
    + rewrite <- H. destruct (Hf a x) as [E | E]; rewrite E; [left | right; left]; reflexivity.
    + right. right. exact H.
Qed.

Lemma Math_min2_choice : forall a b, Math_min2 a b = a \/ Math_min2 a b = b.
Proof.
  intros a b. unfold Math_min2.
  destruct (is_nan a); [left; reflexivity|]. destruct (is_nan b); [right; reflexivity|].
  destruct (PrimFloat.ltb a b); [left; reflexivity|].
  destruct (PrimFloat.ltb b a); [right; reflexivity|].
  destruct (PrimFloat.ltb (1 / a) 0); [left | right]; reflexivity.
Qed.

Lemma Math_max2_choice : forall a b, Math_max2 a b = a \/ Math_max2 a b = b.
Proof.
  intros a b. unfold Math_max2.
  destruct (is_nan a); [left; reflexivity|]. destruct (is_nan b); [right; reflexivity|].
  destruct (PrimFloat.ltb b a); [left; reflexivity|].
  destruct (PrimFloat.ltb a b); [right; reflexivity|].
  destruct (PrimFloat.ltb (1 / a) 0); [right | left]; reflexivity.
Qed.

Lemma Math_min2_infinity : forall x, Math_min2 infinity x = x.
Proof.
  intros x. unfold Math_min2. change (is_nan infinity) with false. cbv iota.
  destruct (is_nan x); [reflexivity|].
  assert (H : PrimFloat.ltb infinity x = false).
  { rewrite ltb_spec. change (Prim2SF infinity) with (S754_infinity false).
    destruct (Prim2SF x) as [s | s | | s m e]; try reflexivity; destruct s; reflexivity. }
  rewrite H. destruct (PrimFloat.ltb x infinity); reflexivity.
Qed.

Lemma Math_max2_neg_infinity : forall x, Math_max2 neg_infinity x = x.
Proof.
  intros x. unfold Math_max2. change (is_nan neg_infinity) with false. cbv iota.
  destruct (is_nan x) eqn:N; [reflexivity|].
  assert (H : PrimFloat.ltb x neg_infinity = false).
  { rewrite ltb_spec. change (Prim2SF neg_infinity) with (S754_infinity true).
    destruct (Prim2SF x) as [s | s | | s m e]; try reflexivity; destruct s; reflexivity. }
  rewrite H. destruct (PrimFloat.ltb neg_infinity x) eqn:L; [reflexivity|].
  change (PrimFloat.ltb (1 / neg_infinity) 0) with false. cbv iota.
  apply Prim2SF_inj. change (Prim2SF neg_infinity) with (S754_infinity true).
  rewrite ltb_spec in L. change (Prim2SF neg_infinity) with (S754_infinity true) in L.
  rewrite is_nan_spec in N.
  destruct (Prim2SF x) as [s | s | | s m e]; try discriminate; destruct s; try discriminate.
  reflexivity.
Qed.

Lemma Math_min2_le : forall a b,
  is_nan a = false -> is_nan b = false ->
  PrimFloat.leb (Math_min2 a b) a = true /\ PrimFloat.leb (Math_min2 a b) b = true.
Proof.
  intros a b Na Nb. unfold Math_min2. rewrite Na, Nb.
  rewrite (ltb_rank a b Na Nb), (ltb_rank b a Nb Na).
  destruct (Z.ltb_spec (rank (Prim2SF a)) (rank (Prim2SF b))) as [H | H].
  - rewrite (leb_refl a Na), (leb_rank a b Na Nb). split; [reflexivity | apply Z.leb_le; lia].
  - destruct (Z.ltb_spec (rank (Prim2SF b)) (rank (Prim2SF a))) as [H' | H'].
    + rewrite (leb_refl b Nb), (leb_rank b a Nb Na). split; [apply Z.leb_le; lia | reflexivity].
    + destruct (PrimFloat.ltb (1 / a) 0).
      * rewrite (leb_refl a Na), (leb_rank a b Na Nb). split; [reflexivity | apply Z.leb_le; lia].
      * rewrite (leb_refl b Nb), (leb_rank b a Nb Na). split; [apply Z.leb_le; lia | reflexivity].
Qed.

Lemma Math_max2_ge : forall a b,
  is_nan a = false -> is_nan b = false ->
  PrimFloat.leb a (Math_max2 a b) = true /\ PrimFloat.leb b (Math_max2 a b) = true.
Proof.
  intros a b Na Nb. unfold Math_max2. rewrite Na, Nb.
  rewrite (ltb_rank a b Na Nb), (ltb_rank b a Nb Na).
  destruct (Z.ltb_spec (rank (Prim2SF b)) (rank (Prim2SF a))) as [H | H].
  - rewrite (leb_refl a Na), (leb_rank b a Nb Na). split; [reflexivity | apply Z.leb_le; lia].
  - destruct (Z.ltb_spec (rank (Prim2SF a)) (rank (Prim2SF b))) as [H' | H'].
    + rewrite (leb_refl b Nb), (leb_rank a b Na Nb). split; [apply Z.leb_le; lia | reflexivity].
    + destruct (PrimFloat.ltb (1 / a) 0).
      * rewrite (leb_refl b Nb), (leb_rank a b Na Nb). split; [apply Z.leb_le; lia | reflexivity].
      * rewrite (leb_refl a Na), (leb_rank b a Nb Na). split; [reflexivity | apply Z.leb_le; lia].
Qed.

Lemma fold_min_le : forall l a,
  is_nan a = false -> Forall (fun t => is_nan t = false) l ->
  Forall (fun t => PrimFloat.leb (fold_left Math_min2 l a) t = true) (a :: l).
Proof.
  induction l as [|x l IH]; intros a Na Hl.
  - constructor; [apply leb_refl; exact Na | constructor].
  - inversion Hl as [|? ? Nx Hl']; subst. cbn [fold_left].
    destruct (Math_min2_le a x Na Nx) as [Ha Hx].
    assert (Nm : is_nan (Math_min2 a x) = false) by (apply (leb_not_nan _ _ Ha)).
    pose proof (IH (Math_min2 a x) Nm Hl') as H.
    inversion H as [|? ? Hm Hrest]; subst.
    constructor; [exact (leb_trans _ _ _ Hm Ha)|].
    constructor; [exact (leb_trans _ _ _ Hm Hx) | exact Hrest].
Qed.

Lemma fold_max_ge : forall l a,
  is_nan a = false -> Forall (fun t => is_nan t = false) l ->
  Forall (fun t => PrimFloat.leb t (fold_left Math_max2 l a) = true) (a :: l).
Proof.
  induction l as [|x l IH]; intros a Na Hl.
  - constructor; [apply leb_refl; exact Na | constructor].
  - inversion Hl as [|? ? Nx Hl']; subst. cbn [fold_left].
    destruct (Math_max2_ge a x Na Nx) as [Ha Hx].
    assert (Nm : is_nan (Math_max2 a x) = false) by (apply (leb_not_nan _ _ Ha)).
    pose proof (IH (Math_max2 a x) Nm Hl') as H.
    inversion H as [|? ? Hm Hrest]; subst.
    constructor; [exact (leb_trans _ _ _ Ha Hm)|].
    constructor; [exact (leb_trans _ _ _ Hx Hm) | exact Hrest].
Qed.

(** [Math.min(...l)] and [Math.max(...l)] of a list that is not empty are a
    least and a greatest element of it. *)
Lemma Math_min_max_extremes : forall t l,
  extremes (Math_min (t :: l)) (Math_max (t :: l)) (t :: l).
Proof.
  intros t l. unfold Math_min, Math_max. cbn [fold_left].
  rewrite Math_min2_infinity, Math_max2_neg_infinity.
  split; [apply (fold_left_choice Math_min2 Math_min2_choice) |
          split; [apply (fold_left_choice Math_max2 Math_max2_choice) |]].
  intros Hn. inversion Hn as [|? ? Nt Hl]; subst.
  pose proof (fold_min_le l t Nt Hl) as Hlo. pose proof (fold_max_ge l t Nt Hl) as Hhi.
  rewrite Forall_forall in *. intros x Hx. split; [apply Hlo | apply Hhi]; exact Hx.
Qed.

(** ** The claims about [getWeatherData] *)

(** C3, as stated, fails: three samples of 7.35 on one day give one
    forecast whose rounded mean 7.3 is below its min 7.4 (the sum
    7.35 + 7.35 + 7.35 is 22.049999999999997 in doubles). *)
Lemma rounded_mean_below_min :
  Forall (well_formed_on 20402) three_of_7_35 /\
  exists f,
    forecasts (getWeatherData (answers three_of_7_35) zero zero 7) = [f] /\
    day (temperature f) = 7.3 /\
    min (temperature f) = 7.4 /\
    max (temperature f) = 7.4 /\
    PrimFloat.leb (min (temperature f)) (day (temperature f)) = false.
Proof.
  split.
  - repeat constructor; discriminate.
  - eexists. split; [vm_compute; reflexivity|].
    repeat split; vm_compute; reflexivity.
Qed.

(** A sample on 13 September 275760, the last day a [Date] can hold, has
    a day key whose noon is no valid time: the aggregation throws and no
    forecast is returned. *)
Lemma last_day_gives_no_forecast :
  Forall (well_formed_on 100000000) last_day /\
  forecasts (getWeatherData (answers last_day) zero zero 7) = [] /\
  error (getWeatherData (answers last_day) zero zero 7) = Some invalid_time.
Proof.
  split; [repeat constructor; discriminate | split; vm_compute; reflexivity].
Qed.

(** C3, amended: take a list of samples, not empty, all on the UTC day [k]
    and each with its [main] block, and a request for more than zero days.
    If [k] is the last day a [Date] can hold, the aggregation throws and
    no forecast is returned.  On every other day exactly one forecast is
    produced, dated noon of day [k]; its [min] and [max] are a least and a
    greatest of the samples' temperatures and its [day] is their sum, left
    to right, over their number, each of the three rounded to one decimal
    on its own; its precipitation and snow are the sums, left to right, of
    the samples' 3-hour amounts, an absent one counting as 0. *)
Theorem one_day_one_forecast :
  forall (net : nat -> FetchOutcome Payload) (latitude longitude : Js.Value)
         (days : float) (r : Response Payload) (items : list Sample)
         (c n : option string) (k : Z),
    returned (makeApiRequestWithRetry net 3 2%Q) = Some r ->
    body r = Parsed (Some items) c n ->
    items <> [] ->
    Forall (well_formed_on k) items ->
    geb 0 days = false ->
    exists temps,
      map (fun i => option_map temp (sample_main i)) items = map Some temps /\
      (k = 100000000%Z ->
       forecasts (getWeatherData net latitude longitude days) = [] /\
       days_count (getWeatherData net latitude longitude days) = 0%nat /\
       error (getWeatherData net latitude longitude days) = Some invalid_time) /\
      (k <> 100000000%Z ->
       exists f lo hi,
         forecasts (getWeatherData net latitude longitude days) = [f] /\
         days_count (getWeatherData net latitude longitude days) = 1%nat /\
         error (getWeatherData net latitude longitude days) = None /\
         date f = (k * msPerDay + 43200000)%Z /\
         extremes lo hi temps /\
         min (temperature f) = round1 lo /\
         max (temperature f) = round1 hi /\
         day (temperature f) = round1 (sum temps / of_nat (List.length temps)) /\
         precipitation f = sum (map (fun i => or0 (rain_3h i)) items) /\
         snow f = sum (map (fun i => or0 (snow_3h i)) items)).
Proof.
  intros net latitude longitude days r items c n k Hret Hbody Hne Hall Hdays.
  destruct items as [|i rest]; [congruence|].
  assert (Hkeys : Forall (fun i => sample_dayKey i = Ok k) (i :: rest)).
  { eapply Forall_impl; [|exact Hall]. intros a [Ha _]. exact Ha. }
  assert (Hmains : Forall (fun i => sample_main i <> None) (i :: rest)).
  { eapply Forall_impl; [|exact Hall]. intros a [_ Ha]. exact Ha. }
  assert (Hk : (-100000000 <= k <= 100000000)%Z).
  { inversion Hkeys as [|? ? Hi _]; subst. exact (sample_dayKey_range i k Hi). }
  destruct (mains_total _ Hmains) as (ms & Hms & Hmap).
  destruct (representative_in i rest) as (x & Hx & Hin).
  assert (Hxm : exists mm, sample_main x = Some mm).
  { rewrite Forall_forall in Hmains. specialize (Hmains x Hin).
    destruct (sample_main x) as [mm|]; [eexists; reflexivity | congruence]. }
  destruct Hxm as (mm & Hmm).
  assert (Htemps : map (fun i => option_map temp (sample_main i)) (i :: rest) =
                   map Some (map temp ms)).
  { rewrite <- (map_map sample_main (option_map temp)), Hmap, !map_map. reflexivity. }
  exists (map temp ms). split; [exact Htemps | split].
  - intros ->.
    assert (Hagg : aggregate (i :: rest) days = Throw invalid_time).
    { unfold aggregate. rewrite (group_one_bucket i rest _ Hkeys). cbn [bind emit].
      change (of_nat 0) with 0. rewrite Hdays.
      unfold forecast_of. rewrite Hms. cbn [bind]. rewrite Hx.
      rewrite (noon_clip _ Hk). reflexivity. }
    unfold getWeatherData. rewrite Hret, Hbody, Hagg. repeat split; reflexivity.
  - intros Hlast.
    assert (Hnoon : TimeClip (k * msPerDay + 43200000) = Some (k * msPerDay + 43200000)%Z).
    { rewrite (noon_clip _ Hk). destruct (Z.eqb_spec k 100000000); [contradiction | reflexivity]. }
    assert (Hagg : exists f,
      aggregate (i :: rest) days = Ok [f] /\
      date f = (k * msPerDay + 43200000)%Z /\
      min (temperature f) = round1 (Math_min (map temp ms)) /\
      max (temperature f) = round1 (Math_max (map temp ms)) /\
      day (temperature f) = round1 (sum (map temp ms) / of_nat (List.length (map temp ms))) /\
      precipitation f = sum (map (fun i => or0 (rain_3h i)) (i :: rest)) /\
      snow f = sum (map (fun i => or0 (snow_3h i)) (i :: rest))).
    { unfold aggregate. rewrite (group_one_bucket i rest k Hkeys). cbn [bind emit].
      change (of_nat 0) with 0. rewrite Hdays.
      unfold forecast_of. rewrite Hms. cbn [bind]. rewrite Hx, Hnoon, Hmm. cbn [bind].
      eexists. split; [reflexivity|].
      cbn [temperature date day min max precipitation snow].
      repeat split; try reflexivity; unfold sum; apply fold_left_map. }
    destruct Hagg as (f & Hagg & Hdate & Hmin & Hmax & Hd & Hp & Hs).
    exists f, (Math_min (map temp ms)), (Math_max (map temp ms)).
    unfold getWeatherData. rewrite Hret, Hbody, Hagg.
    cbn [forecasts days_count error List.length].
    repeat (split; [first [reflexivity | assumption]|]).
    split; [|repeat split; assumption].
    destruct ms as [|m ms']; [discriminate Hmap|].
    cbn [map]. apply Math_min_max_extremes.
Qed.

Lemma one_day_one_forecast_witness :
  exists temps,
    map (fun i => option_map temp (sample_main i)) three_of_7_35 = map Some temps /\
    (20402%Z = 100000000%Z ->
     forecasts (getWeatherData (answers three_of_7_35) zero zero 7) = [] /\
     days_count (getWeatherData (answers three_of_7_35) zero zero 7) = 0%nat /\
     error (getWeatherData (answers three_of_7_35) zero zero 7) = Some invalid_time) /\
    (20402%Z <> 100000000%Z ->
     exists f lo hi,
       forecasts (getWeatherData (answers three_of_7_35) zero zero 7) = [f] /\
       days_count (getWeatherData (answers three_of_7_35) zero zero 7) = 1%nat /\
       error (getWeatherData (answers three_of_7_35) zero zero 7) = None /\
       date f = (20402 * msPerDay + 43200000)%Z /\
       extremes lo hi temps /\
       min (temperature f) = round1 lo /\
       max (temperature f) = round1 hi /\
       day (temperature f) = round1 (sum temps / of_nat (List.length temps)) /\
       precipitation f = sum (map (fun i => or0 (rain_3h i)) three_of_7_35) /\
       snow f = sum (map (fun i => or0 (snow_3h i)) three_of_7_35)).
Proof.
  apply (one_day_one_forecast (answers three_of_7_35) zero zero 7
           (mkResponse 200 None (Parsed (Some three_of_7_35) None None))
           three_of_7_35 None None 20402%Z).
  - reflexivity.
  - reflexivity.
  - discriminate.
  - repeat constructor; discriminate.
  - reflexivity.
Defined.

(** C10, as stated, fails on the bound: a request for 2.5 days over a feed
    of four days succeeds with three forecasts, more than the 2.5 days
    requested ([days_count] does equal the length). *)
Lemma fractional_days_give_one_more :
  let r := getWeatherData (answers four_days) zero zero 2.5 in
  error r = None /\
  days_count r = 3%nat /\
  List.length (forecasts r) = 3%nat /\
  PrimFloat.leb (of_nat (List.length (forecasts r))) 2.5 = false.
Proof.
  repeat split; vm_compute; reflexivity.
Qed.

(** C10, amended: on every return path [days_count] is the length of
    [forecasts]; both are 0 whenever an error is reported; and the length
    is at most every whole number [n] with [n >= days], that is, at most
    the requested days rounded up to a whole number. *)
Theorem days_count_is_forecasts_length :
  forall (net : nat -> FetchOutcome Payload) (latitude longitude : Js.Value) (days : float),
    let r := getWeatherData net latitude longitude days in
    days_count r = List.length (forecasts r) /\
    (error r <> None -> forecasts r = [] /\ days_count r = 0%nat) /\
    (forall n : nat, geb (of_nat n) days = true -> (List.length (forecasts r) <= n)%nat).
Proof.
  intros net latitude longitude days. unfold getWeatherData.
  destruct (returned (makeApiRequestWithRetry net 3 2%Q)) as [response|];
    [|cbn; repeat split; intros; lia].
  destruct (body response) as [err | [items|] c n];
    [cbn; repeat split; intros; lia | | cbn; repeat split; intros; lia].
  destruct (aggregate items days) as [fs|err] eqn:Hagg;
    [|cbn; repeat split; intros; lia].
  cbn. split; [reflexivity | split].
  - intros Herr. congruence.
  - intros bound Hbound. unfold aggregate in Hagg.
    destruct (group items []) as [m|e]; cbn [bind] in Hagg; [|discriminate].
    pose proof (emit_bound m days 0 fs bound Hagg Hbound ltac:(lia)). lia.
Qed.

End WeatherFacts.

(* ================================================================== *)
(** * Properties of the nearby-launch pipeline *)
(* ================================================================== *)

Module LaunchFacts.

Import Floats.
Import Retry Calendar Num Weather Launches.
Import CalendarCases WeatherCases LaunchCases.
Local Open Scope string_scope.
Local Open Scope list_scope.

(** ** Inversion of a successful run *)

Lemma nearby_success_inv :
  forall h up location_ maxDistanceKm_ daysAhead_ maxResults specificDate r,
    getNearbyLaunches h up location_ maxDistanceKm_ daysAhead_ maxResults specificDate
    = Success r ->
    exists locData dates weatherData cutoff startDate,
      geocodeLocation (geocoding up location_) = Some locData /\
      let nearby :=
        sort (filter_nearby h locData maxDistanceKm_ (truthy specificDate)
                (dateStart dates) (dateEnd dates) cutoff startDate
                (getNextLaunch (launch_feed up) (Some "Go"%string) None maxResults)) in
      found_location r = locData /\
      launches r = map (check_visibility h (forecasts weatherData)) nearby /\
      launches_found r = List.length nearby /\
      found_weather r =
        (if (List.length nearby =? 0)%nat then Some weatherData else None).
Proof.
  intros h up location_ maxDistanceKm_ daysAhead_ maxResults specificDate r Hrun.
  unfold getNearbyLaunches, nearby_body in Hrun.
  destruct (geocodeLocation (geocoding up location_)) as [locData|]; [|discriminate].
  destruct (if truthy specificDate
            then resolveDate h (or_else specificDate "")
            else Some (mkResolved None None None)) as [dates|]; [|discriminate].
  match type of Hrun with
  | context [bind ?w _] => destruct w as [weatherData|err]
  end; cbn [bind] in Hrun; [|discriminate].
  inversion Hrun; subst r; clear Hrun.
  exists locData, dates, weatherData.
  eexists. eexists. split; [reflexivity|].
  cbv zeta. cbn [found_location launches launches_found found_weather].
  repeat split; reflexivity.
Qed.

(** ** What the feed scan and step 5 hand on *)

Lemma scan_fresh : forall statusFilter providerFilter maxResults raw found,
  Forall (fun l => weather_forecast l = None)
         (scan statusFilter providerFilter maxResults raw found).
Proof.
  intros statusFilter providerFilter maxResults raw.
  induction raw as [|x rest IH]; intros found; cbn [scan]; [constructor|].
  destruct (filtered_out statusFilter _); [apply IH|].
  destruct (filtered_out providerFilter _); [apply IH|].
  constructor; [reflexivity|].
  destruct (geb _ _); [constructor | apply IH].
Qed.

Lemma getNextLaunch_fresh : forall net statusFilter providerFilter maxResults,
  Forall (fun l => weather_forecast l = None)
         (getNextLaunch net statusFilter providerFilter maxResults).
Proof.
  intros net statusFilter providerFilter maxResults. unfold getNextLaunch.
  destruct (returned _) as [response|]; [|constructor].
  destruct (body response) as [err | [results|]]; try constructor.
  apply scan_fresh.
Qed.

Lemma filter_nearby_near :
  forall h locData maxDistanceKm_ specific dateStart_ dateEnd_ cutoff startDate found,
    Forall (near h locData maxDistanceKm_)
           (filter_nearby h locData maxDistanceKm_ specific dateStart_ dateEnd_
                          cutoff startDate found).
Proof.
  intros h locData maxDistanceKm_ specific dateStart_ dateEnd_ cutoff startDate found.
  induction found as [|l rest IH]; cbn [filter_nearby]; [constructor|].
  destruct (truthy (net_raw l)) eqn:Hnet; cbn [negb]; [|exact IH].
  destruct (outside_window _ _ _ _ _ _); [exact IH|].
  destruct (Js.is_undefined (latitude l)) eqn:Hla; cbn [orb]; [exact IH|].
  destruct (Js.is_undefined (longitude l)) eqn:Hlo; [exact IH|].
  destruct (PrimFloat.leb _ _) eqn:Hd; [|exact IH].
  constructor; [|exact IH].
  unfold near, pad_distance. cbn [net_raw latitude longitude distance_km].
  repeat split; assumption.
Qed.

Lemma filter_nearby_fresh :
  forall h locData maxDistanceKm_ specific dateStart_ dateEnd_ cutoff startDate found,
    Forall (fun l => weather_forecast l = None) found ->
    Forall (fun l => weather_forecast l = None)
           (filter_nearby h locData maxDistanceKm_ specific dateStart_ dateEnd_
                          cutoff startDate found).
Proof.
  intros h locData maxDistanceKm_ specific dateStart_ dateEnd_ cutoff startDate found Hall.
  induction Hall as [|l rest Hl _ IH]; cbn [filter_nearby]; [constructor|].
  destruct (negb (truthy (net_raw l))); [exact IH|].
  destruct (outside_window _ _ _ _ _ _); [exact IH|].
  destruct (Js.is_undefined (latitude l) || Js.is_undefined (longitude l)); [exact IH|].
  destruct (PrimFloat.leb _ _); [|exact IH].
  constructor; [exact Hl | exact IH].
Qed.

(** ** What step 6 leaves alone, and what it attaches *)

Lemma check_visibility_keeps : forall h fs l,
  net_raw (check_visibility h fs l) = net_raw l /\
  latitude (check_visibility h fs l) = latitude l /\
  longitude (check_visibility h fs l) = longitude l /\
  distance_km (check_visibility h fs l) = distance_km l.
Proof.
  intros h fs l. unfold check_visibility.
  destruct (if truthy (net_raw l) then _ else _) as [[st rs] snap].
  repeat split; reflexivity.
Qed.

Lemma visibilityStatus_known : forall mw, visibilityStatus mw <> Unknown.
Proof.
  intros mw. unfold visibilityStatus. cbv zeta.
  destruct (_ || _); [discriminate|].
  destruct (1 <=? _)%nat; discriminate.
Qed.

(** A launch that arrives with a nominal time and nothing attached leaves
    step 6 with a verdict, and with a weather snapshot exactly when the
    verdict is not "Unknown", that is, when a forecast for its day was
    found. *)
Lemma check_visibility_snapshot : forall h fs l,
  truthy (net_raw l) = true -> weather_forecast l = None ->
  exists v,
    visibility (check_visibility h fs l) = Some v /\
    (weather_forecast (check_visibility h fs l) = None <-> vis_status v = Unknown).
Proof.
  intros h fs l Hnet Hw. unfold check_visibility. rewrite Hnet.
  destruct (bind _ _) as [[mw|]|err]; cbn [visibility weather_forecast].
  - eexists. split; [reflexivity|]. cbn [vis_status].
    split; [discriminate | intros H; destruct (visibilityStatus_known mw H)].
  - rewrite Hw. eexists. split; [reflexivity|]. cbn [vis_status]. split; reflexivity.
  - rewrite Hw. eexists. split; [reflexivity|]. cbn [vis_status]. split; reflexivity.
Qed.

Lemma near_check_visibility : forall h fs locData maxDistanceKm_ l,
  near h locData maxDistanceKm_ l -> near h locData maxDistanceKm_ (check_visibility h fs l).
Proof.
  intros h fs locData maxDistanceKm_ l (Hnet & Hla & Hlo & Hd & Hkm).
  destruct (check_visibility_keeps h fs l) as (En & Ela & Elo & Ekm).
  unfold near, pad_distance in *. rewrite En, Ela, Elo, Ekm. repeat split; assumption.
Qed.

(** ** Sorting *)

Lemma or0_not_nan : forall o, is_nan (or0 o) = false.
Proof.
  intros [q|]; unfold or0; [|reflexivity].
  unfold falsy. destruct (PrimFloat.eqb q 0); [reflexivity|]. cbn [orb].
  destruct (is_nan q) eqn:N; [reflexivity | exact N].
Qed.

(** The comparator leaves [a] in front of [b] exactly when [a]'s key is at
    most [b]'s. *)
Lemma stays_before_key : forall a b,
  stays_before a b = PrimFloat.leb (sort_key a) (sort_key b).
Proof.
  intros a b. unfold stays_before, by_distance, sort_key. cbv zeta.
  apply DoubleFacts.sub_sign; apply or0_not_nan.
Qed.

Lemma insert_perm : forall x l, Permutation (insert x l) (x :: l).
Proof.
  intros x l. induction l as [|y rest IH]; cbn [insert].
  - apply Permutation_refl.
  - destruct (stays_before x y).
    + apply Permutation_refl.
    + apply perm_trans with (y :: x :: rest); [apply perm_skip; exact IH | apply perm_swap].
Qed.

Lemma sort_perm : forall l, Permutation (sort l) l.
Proof.
  induction l as [|x rest IH]; cbn [sort]; [apply perm_nil|].
  apply perm_trans with (x :: sort rest); [apply insert_perm | apply perm_skip; exact IH].
Qed.

Lemma insert_sorted : forall x l, Sorted key_le l -> Sorted key_le (insert x l).
Proof.
  intros x l Hs. induction Hs as [|y rest Hrest IH Hhd]; cbn [insert].
  - repeat constructor.
  - destruct (stays_before x y) eqn:Hc; rewrite stays_before_key in Hc.
    + repeat constructor; assumption.
    + assert (Hyx : key_le y x).
      { unfold key_le. apply DoubleFacts.leb_total; [apply or0_not_nan | apply or0_not_nan | exact Hc]. }
      constructor; [exact IH|].
      destruct rest as [|z rest']; cbn [insert].
      * constructor. exact Hyx.
      * destruct (stays_before x z); constructor;
          [exact Hyx | inversion Hhd; assumption].
Qed.

Lemma sort_sorted : forall l, Sorted key_le (sort l).
Proof.
  induction l as [|x rest IH]; cbn [sort]; [constructor | apply insert_sorted; exact IH].
Qed.

Lemma key_le_trans : Transitive key_le.
Proof. intros a b c Hab Hbc. unfold key_le in *. eapply DoubleFacts.leb_trans; eassumption. Qed.

Lemma sort_strongly_sorted : forall l, StronglySorted key_le (sort l).
Proof.
  intros l. apply Sorted_StronglySorted; [exact key_le_trans | apply sort_sorted].
Qed.

Lemma map_strongly_sorted : forall h fs l,
  StronglySorted key_le l -> StronglySorted key_le (map (check_visibility h fs) l).
Proof.
  intros h fs l Hs. induction Hs as [|x rest Hrest IH Hall]; cbn [map]; constructor.
  - exact IH.
  - rewrite Forall_forall in *. intros y Hy. apply in_map_iff in Hy as (y0 & <- & Hy0).
    specialize (Hall y0 Hy0). unfold key_le, sort_key in *.
    destruct (check_visibility_keeps h fs x) as (_ & _ & _ & ->).
    destruct (check_visibility_keeps h fs y0) as (_ & _ & _ & ->).
    exact Hall.
Qed.

(** ** Worked runs *)

Local Open Scope float_scope.

(** Two launches, the far one first in the feed: the one with a [null]
    pad comes back first, at distance 0, then the one at (0, 180). *)
Lemma equator_run :
  exists r a b,
    getNearbyLaunches equator_host (equator_upstream [antipode_launch; null_pad_launch])
                      "Null Island" 20015.087 7 10 None = Success r /\
    launches r = [a; b] /\
    id a = "a1"%string /\ latitude a = Js.Null /\ longitude a = Js.Null /\
    distance_km a = Some 0 /\
    id b = "b2"%string /\ distance_km b = Some 20015.09.
Proof.
  eexists. eexists. eexists.
  split; [vm_compute; reflexivity|].
  split; [vm_compute; reflexivity|].
  repeat split; vm_compute; reflexivity.
Qed.

(** The forecast service knows 10 to 13 November 2025: both launches, on
    12 November, get the snapshot of that day. *)
Lemma forecast_run :
  exists r a b sa sb,
    getNearbyLaunches equator_host
                      (forecast_upstream four_days [antipode_launch; null_pad_launch])
                      "Null Island" 25000 7 10 None = Success r /\
    launches r = [a; b] /\
    weather_forecast a = Some sa /\ weather_forecast b = Some sb /\
    found_weather r = None.
Proof.
  do 5 eexists.
  split; [vm_compute; reflexivity|].
  split; [vm_compute; reflexivity|].
  repeat split; vm_compute; reflexivity.
Qed.

Local Close Scope float_scope.

(** ** C8 *)




(** ** C7 *)

(** C7: when the geocoder gives null the result is exactly the error
    object "Location not found: <place>" with the place; and the call
    always returns a value: an error thrown inside the body comes back as
    the error object "Processing error: <error>" with the place, anything
    else as the body's own result. *)
Theorem unknown_place_and_no_exception :
  forall h up location_ maxDistanceKm_ daysAhead_ maxResults specificDate,
    (geocodeLocation (geocoding up location_) = None ->
     getNearbyLaunches h up location_ maxDistanceKm_ daysAhead_ maxResults specificDate
     = Failure (String.append "Location not found: " location_) location_) /\
    (forall err,
       nearby_body h up location_ maxDistanceKm_ daysAhead_ maxResults specificDate
       = Throw err ->
       getNearbyLaunches h up location_ maxDistanceKm_ daysAhead_ maxResults specificDate
       = Failure (String.append "Processing error: " err) location_) /\
    (forall res,
       nearby_body h up location_ maxDistanceKm_ daysAhead_ maxResults specificDate
       = Ok res ->
       getNearbyLaunches h up location_ maxDistanceKm_ daysAhead_ maxResults specificDate
       = res).
Proof.
  intros h up location_ maxDistanceKm_ daysAhead_ maxResults specificDate.
  unfold getNearbyLaunches. repeat split.
  - intros Hgeo. unfold nearby_body. rewrite Hgeo. reflexivity.
  - intros err Hbody. rewrite Hbody. reflexivity.
  - intros res Hbody. rewrite Hbody. reflexivity.
Qed.

Lemma unknown_place_and_no_exception_witness :
  getNearbyLaunches plain_host no_geocoder "Atlantis" 1000%float 7%float 10%float None
  = Failure "Location not found: Atlantis" "Atlantis" /\
  getNearbyLaunches far_future_host (equator_upstream []) "Null Island"
                    1000%float 7%float 10%float (Some "Dec 31")
  = Failure "Processing error: RangeError: Invalid time value" "Null Island".
Proof.
  split.
  - destruct (unknown_place_and_no_exception plain_host no_geocoder "Atlantis"
                1000%float 7%float 10%float None) as [Hnull _].
    apply Hnull. reflexivity.
  - destruct (unknown_place_and_no_exception far_future_host (equator_upstream [])
                "Null Island" 1000%float 7%float 10%float (Some "Dec 31")) as (_ & Hthrow & _).
    apply (Hthrow "RangeError: Invalid time value"). vm_compute. reflexivity.
Defined.

(** ** C4 *)

Lemma reasons_count : forall mw,
  List.length (visibilityReasons mw) = count_true (flags_of mw).
Proof.
  intros mw. unfold visibilityReasons, count_true. cbv zeta.
  destruct (badWeather (flags_of mw)), (highClouds (flags_of mw)),
    (highHumidity (flags_of mw)), (highPrecipitation (flags_of mw)),
    (highSnow (flags_of mw)); reflexivity.
Qed.

Lemma visibilityStatus_reference : forall mw,
  visibilityStatus mw = reference_status (flags_of mw).
Proof.
  intros mw. unfold visibilityStatus, reference_status. cbv zeta.
  rewrite reasons_count. reflexivity.
Qed.

Local Open Scope float_scope.

(** C4: for a launch matched to the forecast [mw], the attached verdict
    has the status of the reference classification of [mw]'s five flags,
    [can_be_seen] accordingly, and the reasons pushed (or the default
    one).  A clear day with clouds, humidity, precipitation and snow all 0
    is "Good" with the default reason; "rain" with clouds 50 is
    "Not Visible". *)
Theorem visibility_follows_reference :
  (forall h fs launch mw,
     truthy (net_raw launch) = true ->
     bind (toISOString_day (new_Date h (or_else (net_raw launch) "")))
          (fun launchDay => matchingWeather launchDay fs) = Ok (Some mw) ->
     visibility (check_visibility h fs launch) =
     Some {| vis_status := reference_status (flags_of mw);
             can_be_seen := seen (reference_status (flags_of mw));
             reasons := match visibilityReasons mw with
                        | [] => [ClearConditions]
                        | rs => rs
                        end |}) /\
  visibility (check_visibility noon_host [clear_day] (launch_at 0 0)) =
    Some (mkVisibility Good true [ClearConditions]) /\
  (exists rs,
     visibility (check_visibility noon_host [rainy_day] (launch_at 0 0)) =
     Some (mkVisibility NotVisible false rs)).
Proof.
  split; [|split].
  - intros h fs launch mw Hnet Hmatch.
    unfold check_visibility. rewrite Hnet, Hmatch.
    cbn [visibility]. rewrite visibilityStatus_reference.
    destruct (visibilityReasons mw); reflexivity.
  - vm_compute. reflexivity.
  - eexists. vm_compute. reflexivity.
Qed.

Lemma visibility_follows_reference_witness :
  visibility (check_visibility noon_host [rainy_day] (launch_at 0 0)) =
  Some {| vis_status := reference_status (flags_of rainy_day);
          can_be_seen := seen (reference_status (flags_of rainy_day));
          reasons := match visibilityReasons rainy_day with
                     | [] => [ClearConditions]
                     | rs => rs
                     end |}.
Proof.
  destruct visibility_follows_reference as [Hall _].
  apply Hall.
  - reflexivity.
  - reflexivity.
Defined.

Local Close Scope float_scope.

(** ** C6 *)




(** ** Forecast days are valid dates *)

Local Open Scope Z_scope.

Lemma push_representable : forall k item m,
  representable_day k -> keys_representable m -> keys_representable (push k item m).
Proof.
  intros k item m Hk. induction m as [|[k' items] rest IH]; intros Hm.
  - cbn [push]. constructor; [exact Hk | constructor].
  - inversion Hm as [|? ? Hb Hrest]; subst. cbn [push].
    destruct (k' =? k); constructor; auto.
    apply IH. exact Hrest.
Qed.

Lemma group_representable : forall items m m',
  keys_representable m -> group items m = Ok m' -> keys_representable m'.
Proof.
  induction items as [|i rest IH]; intros m m' Hm Hg.
  - cbn in Hg. inversion Hg; subst. exact Hm.
  - cbn [group] in Hg. destruct (sample_dayKey i) as [k|e] eqn:Hk; cbn [bind] in Hg;
      [|discriminate].
    apply (IH (push k i m) m'); [|exact Hg].
    apply push_representable; [|exact Hm].
    exact (WeatherFacts.sample_dayKey_range i k Hk).
Qed.

Lemma forecast_of_date_raw : forall k items f,
  forecast_of k items = Ok f -> date_raw f = k * msPerDay / 1000.
Proof.
  intros k items f H. unfold forecast_of in H.
  destruct (mains items) as [ms|e]; cbn [bind] in H; [|discriminate].
  destruct (match find midday items with
            | Some i => Some i
            | None => hd_error items
            end) as [x|]; [|discriminate].
  destruct (TimeClip (k * msPerDay + 43200000)) as [noon|]; [|discriminate].
  destruct (sample_main x) as [mm|]; [|discriminate].
  inversion H; subst f. reflexivity.
Qed.

Lemma forecast_day_of_key : forall f k,
  representable_day k -> date_raw f = k * msPerDay / 1000 -> forecast_day f = Ok k.
Proof.
  intros f k Hk Hraw. unfold forecast_day, toISOString_day, TimeClip. rewrite Hraw.
  unfold msPerDay, representable_day in *.
  replace (k * 86400000 / 1000 * 1000) with (k * 86400000)
    by (replace (k * 86400000) with (k * 86400 * 1000) by lia;
        rewrite Z.div_mul by lia; reflexivity).
  replace (Z.abs (k * 86400000) <=? 8640000000000000) with true
    by (symmetry; apply Z.leb_le; lia).
  unfold dayKey, Day, msPerDay. rewrite Z.div_mul by lia. reflexivity.
Qed.

Lemma emit_has_days : forall m days dayCount fs,
  keys_representable m -> emit days dayCount m = Ok fs -> Forall has_day fs.
Proof.
  induction m as [|[k items] rest IH]; intros days dayCount fs Hm Hemit.
  - cbn in Hemit. inversion Hemit. constructor.
  - inversion Hm as [|? ? Hk Hrest]; subst. cbn [fst] in Hk.
    cbn [emit] in Hemit. destruct (geb (of_nat dayCount) days).
    + inversion Hemit. constructor.
    + destruct (forecast_of k items) as [f|e] eqn:Hf; cbn [bind] in Hemit; [|discriminate].
      destruct (emit days (S dayCount) rest) as [fs'|e] eqn:Hfs; cbn [bind] in Hemit;
        [|discriminate].
      inversion Hemit; subst fs. constructor.
      * exists k. apply forecast_day_of_key; [exact Hk|].
        exact (forecast_of_date_raw k items f Hf).
      * exact (IH days (S dayCount) fs' Hrest Hfs).
Qed.

Lemma getWeatherData_has_days : forall net latitude_ longitude_ days,
  Forall has_day (forecasts (getWeatherData net latitude_ longitude_ days)).
Proof.
  intros net latitude_ longitude_ days. unfold getWeatherData.
  destruct (returned (makeApiRequestWithRetry net 3 2%Q)) as [response|]; [|constructor].
  destruct (body response) as [err | [items|] c n]; try constructor.
  destruct (aggregate items days) as [fs|err] eqn:Hagg; [|constructor].
  cbn [forecasts]. unfold aggregate in Hagg.
  destruct (group items []) as [m|e] eqn:Hg; cbn [bind] in Hagg; [|discriminate].
  apply (emit_has_days m days 0%nat fs); [|exact Hagg].
  apply (group_representable items [] m); [constructor | exact Hg].
Qed.

Lemma filter_day_total : forall targetDay fs,
  Forall has_day fs -> exists kept, filter_day targetDay fs = Ok kept.
Proof.
  intros targetDay fs Hall. induction Hall as [|f rest [k Hk] _ IH].
  - exists []. reflexivity.
  - destruct IH as (kept & Hkept). cbn [filter_day]. rewrite Hk, Hkept. cbn [bind].
    eexists. reflexivity.
Qed.

(** ** C5 *)

Lemma truthy_text : forall text, text <> ""%string ->
  truthy (Some text) = true /\ or_else (Some text) "" = text.
Proof.
  intros text Hne. unfold truthy, or_else.
  apply String.eqb_neq in Hne. rewrite Hne. split; reflexivity.
Qed.

(** With a place found and a date resolved to a valid day, the pipeline
    runs to its end and reports that day. *)
Lemma nearby_with_date_succeeds :
  forall h up location_ maxDistanceKm_ daysAhead_ maxResults text locData dates t',
    geocodeLocation (geocoding up location_) = Some locData ->
    text <> ""%string ->
    resolveDate h text = Some dates ->
    targetDate dates = Some t' ->
    exists r,
      getNearbyLaunches h up location_ maxDistanceKm_ daysAhead_ maxResults (Some text)
      = Success r /\
      specific_date (search_params r) = Some (date_label h t') /\
      date_filter_active (search_params r) = true.
Proof.
  intros h up location_ maxDistanceKm_ daysAhead_ maxResults text locData dates t'
         Hgeo Hne Hres Htarget.
  destruct (truthy_text text Hne) as [Htruthy Htext].
  unfold getNearbyLaunches, nearby_body.
  rewrite Hgeo, Htruthy, Htext, Hres, Htarget. cbn [toISOString_day bind].
  match goal with
  | |- context [filter_day ?d (forecasts ?w)] =>
    destruct (filter_day_total d (forecasts w)) as (kept & Hkept);
      [apply getWeatherData_has_days | rewrite Hkept]
  end.
  cbn [bind option_map]. eexists. split; [reflexivity|].
  cbn [search_params specific_date date_filter_active option_map]. split; reflexivity.
Qed.




(** What that run reports: 1 July 2028. *)
Lemma sydney_run :
  exists r,
    getNearbyLaunches sydney_host (equator_upstream []) "Null Island"
                      1000%float 7%float 10%float (Some "Jul 1 23:30"%string) = Success r /\
    specific_date (search_params r) = Some (2028, 6, 1).
Proof.
  eexists. split; vm_compute; reflexivity.
Qed.

End LaunchFacts.
